(** * Nut: the build-script parser and directive interpreter

    A shallow embedding of [specification/spec.go]: [Parse], [Build] and
    [RunCommand] with the helpers they call, followed by the properties
    established about them.

    Go strings are byte strings; they are modelled by [string] (a list of
    8-bit [ascii] values).  The pieces of the Go standard library that the
    code calls ([strings], [strconv], [bufio]) are modelled first, from
    their documented behaviour. *)

From Stdlib Require Import ZArith NArith Ascii String List Bool Lia Wf_nat.
From stdpp Require Import gmap strings.
Import ListNotations.

Local Open Scope N_scope.

(** ** Go's [error] values *)

Inductive error : Type :=
| errors_New (text : string)
    (** [errors.New(text)], or [fmt.Errorf] of a constant text *)
| CommandExitError (command : string) (exitCode : Z)
    (** [fmt.Errorf("Failed to execute command: '%s'. Exit code: %d", ...)] *)
| ExternalError (description : string)
    (** an error handed back by a collaborator (file system, runtime driver) *).

(** ** Package [strings] *)

Definition byte (n : N) : ascii := ascii_of_N n.

Fixpoint bytes (l : list N) : string :=
  match l with
  | [] => EmptyString
  | n :: l' => String (byte n) (bytes l')
  end.

(** UTF-8 encoding of a code point below U+10000 (all white space is). *)
Definition utf8 (r : N) : string :=
  if r <? 0x80 then bytes [r]
  else if r <? 0x800 then bytes [0xC0 + r / 64; 0x80 + r mod 64]
  else bytes [0xE0 + r / 4096; 0x80 + (r / 64) mod 64; 0x80 + r mod 64].

(** The code points for which [unicode.IsSpace] answers true: the Latin-1
    spaces ['\t' '\n' '\v' '\f' '\r' ' ' U+0085 U+00A0] and the rest of the
    [White_Space] range table. *)
Definition White_Space : list N :=
  [0x09; 0x0A; 0x0B; 0x0C; 0x0D; 0x20; 0x85; 0xA0; 0x1680;
   0x2000; 0x2001; 0x2002; 0x2003; 0x2004; 0x2005; 0x2006; 0x2007; 0x2008;
   0x2009; 0x200A; 0x2028; 0x2029; 0x202F; 0x205F; 0x3000].

Definition spaceEncodings : list string := map utf8 White_Space.

(** [strings.HasPrefix]. *)
Fixpoint HasPrefix (s prefix : string) {struct prefix} : bool :=
  match prefix with
  | EmptyString => true
  | String p prefix' =>
      match s with
      | EmptyString => false
      | String c s' => Ascii.eqb c p && HasPrefix s' prefix'
      end
  end.

Fixpoint strRev (s : string) : string :=
  match s with
  | EmptyString => EmptyString
  | String c s' => strRev s' +:+ String c EmptyString
  end.

(** Width in bytes of the white-space rune that starts [s], 0 when [s] does
    not start with one.  Go decodes a rune and asks [unicode.IsSpace]; the
    decoder accepts only the shortest encoding of a code point, and an
    encoding never starts inside another one (its first byte is no
    continuation byte), so a rune is white space exactly when the bytes at
    its position are one of [spaceEncodings]. *)
Definition widthOf (encodings : list string) (s : string) : nat :=
  match find (HasPrefix s) encodings with
  | Some p => String.length p
  | None => 0%nat
  end.

Definition spaceWidth : string -> nat := widthOf spaceEncodings.

(** Drop the leading runes whose encoding is in [encodings]; [skip] counts
    the bytes of the current rune still to be consumed. *)
Fixpoint trimLeftFrom (encodings : list string) (skip : nat) (s : string) : string :=
  match s with
  | EmptyString => EmptyString
  | String _ s' =>
      match skip with
      | S k => trimLeftFrom encodings k s'
      | O =>
          match widthOf encodings s with
          | O => s
          | S w => trimLeftFrom encodings w s'
          end
      end
  end.

Definition trimLeftSpace (s : string) : string := trimLeftFrom spaceEncodings 0 s.

(** Trailing white space is found by decoding backwards from the end, that
    is by matching the reversed encodings on the reversed string. *)
Definition trimRightSpace (s : string) : string :=
  strRev (trimLeftFrom (map strRev spaceEncodings) 0 (strRev s)).

(** [strings.TrimSpace]. *)
Definition TrimSpace (s : string) : string := trimRightSpace (trimLeftSpace s).

(** [strings.TrimRight(s, cutset)] for a cutset of one ASCII byte [c]:
    every trailing [c] is removed. *)
Fixpoint TrimRight (s : string) (c : ascii) : string :=
  match s with
  | EmptyString => EmptyString
  | String a s' =>
      match TrimRight s' c with
      | EmptyString => if Ascii.eqb a c then EmptyString else String a EmptyString
      | t => String a t
      end
  end.

Definition flush (cur : string) : list string :=
  match cur with
  | EmptyString => []
  | _ => [cur]
  end.

(** The loop of [strings.Fields]: [cur] is the field being read, [skip] the
    bytes of the current white-space rune still to be consumed. *)
Fixpoint fieldsFrom (skip : nat) (cur : string) (s : string) : list string :=
  match s with
  | EmptyString => flush cur
  | String c s' =>
      match skip with
      | S k => fieldsFrom k cur s'
      | O =>
          match spaceWidth s with
          | O => fieldsFrom 0 (cur +:+ String c EmptyString) s'
          | S w => flush cur ++ fieldsFrom w EmptyString s'
          end
      end
  end.

(** [strings.Fields]. *)
Definition Fields (s : string) : list string := fieldsFrom 0 EmptyString s.

(** [strings.Contains]. *)
Fixpoint Contains (s substr : string) : bool :=
  HasPrefix s substr ||
  match s with
  | EmptyString => false
  | String _ s' => Contains s' substr
  end.

(** The loop of [strings.Split] for a non-empty separator: cut at every
    occurrence of [sep], left to right, occurrences not overlapping. *)
Fixpoint splitFrom (sep : string) (skip : nat) (cur : string) (s : string) : list string :=
  match s with
  | EmptyString => [cur]
  | String c s' =>
      match skip with
      | S k => splitFrom sep k cur s'
      | O =>
          if HasPrefix s sep
          then cur :: splitFrom sep (String.length sep - 1) EmptyString s'
          else splitFrom sep 0 (cur +:+ String c EmptyString) s'
      end
  end.

(** [strings.Split(s, sep)], [sep] not empty. *)
Definition Split (s sep : string) : list string := splitFrom sep 0 EmptyString s.

(** [strings.Join]. *)
Fixpoint Join (elems : list string) (sep : string) : string :=
  match elems with
  | [] => EmptyString
  | [e] => e
  | e :: rest => e +:+ sep +:+ Join rest sep
  end.

(** ** Package [strconv] *)

Inductive NumError : Type := ErrSyntax | ErrRange.

Definition maxUint64 : N := 2 ^ 64 - 1.

(** The digit loop of [strconv.ParseUint(s, 10, 64)]; [n] is a [uint64]. *)
Fixpoint parseUintLoop (s : string) (n : N) : N * option NumError :=
  match s with
  | EmptyString => (n, None)
  | String c s' =>
      let b := N_of_ascii c in
      if (48 <=? b) && (b <=? 57) then
        let d := b - 48 in
        if maxUint64 / 10 + 1 <=? n then (maxUint64, Some ErrRange)
        else
          let n10 := n * 10 in
          let n1 := (n10 + d) mod 2 ^ 64 in
          if (n1 <? n10) || (maxUint64 <? n1) then (maxUint64, Some ErrRange)
          else parseUintLoop s' n1
      else (0, Some ErrSyntax)
  end.

(** [strconv.ParseUint(s, 10, 64)]. *)
Definition ParseUint (s : string) : N * option NumError :=
  match s with
  | EmptyString => (0, Some ErrSyntax)
  | _ => parseUintLoop s 0
  end.

(** ** Package [bufio]: a [Scanner] with the [ScanLines] split function *)

Definition MaxScanTokenSize : N := 65536.

Definition dropCR (data : string) : string :=
  match strRev data with
  | String "013"%char r => strRev r
  | _ => data
  end.

(** Cut [s] at every newline; [cur] is the line being read.  The text after
    the last newline is a line only when it is not empty. *)
Fixpoint rawLines (cur : string) (s : string) : list string :=
  match s with
  | EmptyString => flush cur
  | String c s' =>
      if Ascii.eqb c "010"%char then cur :: rawLines EmptyString s'
      else rawLines (cur +:+ String c EmptyString) s'
  end.

(** The tokens [scanner.Scan()] hands out: a line that does not fit the
    scanner's buffer ends the scan ([ErrTooLong], which [Parse] never looks
    at); the others lose one trailing carriage return. *)
Fixpoint scanTokens (raw : list string) : list string :=
  match raw with
  | [] => []
  | l :: raw' =>
      if MaxScanTokenSize <=? N.of_nat (String.length l) then []
      else dropCR l :: scanTokens raw'
  end.

Definition ScanLines (text : string) : list string :=
  scanTokens (rawLines EmptyString text).

(** ** The data model ([Manifest] is declared outside [spec.go]) *)

Module Manifest.
(** Modelled from the spec: the type [Manifest], declared in another file
    of the package; these are the fields [spec.go] reads and writes. *)
Record t : Type := mk {
  Labels : gmap string string;
  ExposedPorts : list N;
  Env : list string;
  WorkDir : string;
  Maintainers : list string;
  User : string;
  EntryPoint : list string
}.
End Manifest.

(** A non-nil [*lxc.Container]; only the identity of the handle matters. *)
Inductive Container : Type := ContainerRef (addr : N).

Module BuilderState.
Record t : Type := mk {
  Container : option Container;
  Env : list string;
  Cwd : string;
  Manifest : Manifest.t
}.
End BuilderState.

Record Spec : Type := mkSpec {
  ID : string;
  Statements : list string;
  State : BuilderState.t
}.

(** The zero value of [BuilderState]. *)
Definition zeroManifest : Manifest.t :=
  Manifest.mk ∅ [] [] EmptyString [] EmptyString [].

Definition zeroState : BuilderState.t :=
  BuilderState.mk None [] EmptyString zeroManifest.

Definition New (id : string) : Spec :=
  {| ID := id; Statements := []; State := zeroState |}.

(** ** [Spec.Parse] *)

(** [regexp.MustCompile(`^#`).MatchString]. *)
Definition isComment (line : string) : bool := HasPrefix line "#".

(** [regexp.MustCompile(`\\$`).MatchString]: the last byte is a backslash. *)
Definition isExtendedStatement (line : string) : bool :=
  HasPrefix (strRev line) "\".

(** The state of the scanning loop: the local [previousStatement] and
    [spec.Statements]. *)
Definition ParseState : Type := (string * list string)%type.

(** One iteration of [for scanner.Scan() { ... }]. *)
Definition parseLine (st : ParseState) (line : string) : ParseState :=
  let '(previousStatement, statements) := st in
  if isComment line then st
  else if isExtendedStatement line then
    if negb (String.eqb previousStatement EmptyString)
    then (previousStatement +:+ " " +:+ TrimRight line "\"%char, statements)
    else (TrimRight line "\"%char, statements)
  else if String.eqb (TrimSpace line) EmptyString then st
  else
    if negb (String.eqb previousStatement EmptyString)
    then (EmptyString, statements ++ [previousStatement +:+ " " +:+ line])
    else (previousStatement, statements ++ [line]).

Definition parseLines (lines : list string) (st : ParseState) : ParseState :=
  fold_left parseLine lines st.

(** [os.Open]: the content of the file, or the error. *)
Definition FileSystem : Type := string -> string + error.

Definition Parse (fs : FileSystem) (spec : Spec) (file : string) : Spec * option error :=
  match fs file with
  | inr err => (spec, Some err)
  | inl text =>
      let '(_, statements) :=
        parseLines (ScanLines text) (EmptyString, Statements spec) in
      ({| ID := ID spec; Statements := statements; State := State spec |}, None)
  end.

(** ** Effects of [Build]

    [Build] mutates [spec.State], calls collaborators (the container
    runtime, the host file system, host processes) and can stop in three
    ways: by returning a non-nil [error], by a run-time panic, or by
    [log.Fatalf], which ends the process.  The collaborators are a
    parameter; what they answer may depend on everything done so far. *)

Record AttachOptions : Type := mkAttachOptions {
  ClearEnv : bool;
  OptCwd : string;
  OptEnv : list string
}.

(** The calls that act on the outside world, in the order they are made. *)
Inductive Event : Type :=
| CloneAndStartContainerCall (name id volume : string)
| ManifestLoadCall (name : string)
| WriteFileCall (filename data : string) (perm : N)
| RunCommandStatusCall (c : Container) (args : list string) (options : AttachOptions)
| ExecCommandCall (name : string) (args : list string).

Record Runtime : Type := mkRuntime {
  (** declared in other files of the package *)
  ParentName : string -> string;
  MinimalEnv : list string;
  CloneAndStartContainer :
    list Event -> string -> string -> string -> option Container * option error;
  ManifestLoad : list Event -> Manifest.t -> string -> Manifest.t * option error;
  (** go-lxc *)
  ConfigItem : list Event -> Container -> string -> list string;
  RunCommandStatus :
    list Event -> Container -> list string -> AttachOptions -> Z * option error;
  (** io/ioutil, os/exec, path/filepath, yaml *)
  WriteFile : list Event -> string -> string -> N -> option error;
  ExecRun : list Event -> string -> list string -> option error;
  ExecCombinedOutput : list Event -> string -> list string -> string * option error;
  filepathAbs : list Event -> string -> string * option error;
  filepathBase : string -> string;
  filepathJoin : list string -> string;
  yamlMarshal : Manifest.t -> string * option error;
  (** the order in which [range] visits a map is not specified *)
  rangeMap : gmap string string -> list (string * string)
}.

Inductive PanicCause : Type := IndexOutOfRange | NilDereference.

Inductive Outcome (A : Type) : Type :=
| Val (a : A)
| Exited (code : Z)
| Panicked (cause : PanicCause).
Arguments Val {A} a.
Arguments Exited {A} code.
Arguments Panicked {A} cause.

Record Config : Type := mkConfig {
  state : BuilderState.t;
  trace : list Event
}.

Definition M (A : Type) : Type := Config -> Outcome A * Config.

Definition ret {A} (a : A) : M A := fun cfg => (Val a, cfg).

Definition bind {A B} (m : M A) (k : A -> M B) : M B :=
  fun cfg =>
    match m cfg with
    | (Val a, cfg') => k a cfg'
    | (Exited code, cfg') => (Exited code, cfg')
    | (Panicked cause, cfg') => (Panicked cause, cfg')
    end.

Notation "'let*' x ':=' m 'in' k" := (bind m (fun x => k))
  (at level 10, x pattern, k at level 200).

Definition panic {A} (cause : PanicCause) : M A := fun cfg => (Panicked cause, cfg).

(** [log.Fatalf] logs, then calls [os.Exit(1)]. *)
Definition logFatalf {A} : M A := fun cfg => (Exited 1%Z, cfg).

Definition getState : M BuilderState.t := fun cfg => (Val (state cfg), cfg).

Definition getTrace : M (list Event) := fun cfg => (Val (trace cfg), cfg).

Definition modify (f : BuilderState.t -> BuilderState.t) : M unit :=
  fun cfg => (Val tt, {| state := f (state cfg); trace := trace cfg |}).

Definition modifyManifest (f : Manifest.t -> Manifest.t) : M unit :=
  modify (fun st =>
    BuilderState.mk (BuilderState.Container st) (BuilderState.Env st)
      (BuilderState.Cwd st) (f (BuilderState.Manifest st))).

Definition emit (e : Event) : M unit :=
  fun cfg => (Val tt, {| state := state cfg; trace := trace cfg ++ [e] |}).

(** [l[i]]. *)
Definition index {A} (l : list A) (i : nat) : M A :=
  match nth_error l i with
  | Some x => ret x
  | None => panic IndexOutOfRange
  end.

(** A method call on [spec.State.Container]: go-lxc locks the container's
    mutex first, which panics on a nil receiver. *)
Definition theContainer : M Container :=
  let* st := getState in
  match BuilderState.Container st with
  | Some c => ret c
  | None => panic NilDereference
  end.

(** [if err != nil { return err }], then go on with [k]. *)
Definition orReturn (m : M (option error)) (k : M (option error)) : M (option error) :=
  let* err := m in
  match err with
  | Some e => ret (Some e)
  | None => k
  end.

Section Interpreter.

Variable rt : Runtime.
(** The receiver's [spec.ID] and the [volumes] argument of [Build]. *)
Variable id : string.
Variable volumes : list string.

(** [spec.State.Container.ConfigItem("lxc.rootfs")[0]]. *)
Definition rootfsOf : M string :=
  let* c := theContainer in
  let* tr := getTrace in
  index (ConfigItem rt tr c "lxc.rootfs") 0.

Definition writeFile (filename data : string) (perm : N) : M (option error) :=
  let* tr := getTrace in
  let* _ := emit (WriteFileCall filename data perm) in
  ret (WriteFile rt tr filename data perm).

Definition execRun (name : string) (args : list string) : M (option error) :=
  let* tr := getTrace in
  let* _ := emit (ExecCommandCall name args) in
  ret (ExecRun rt tr name args).

Definition execCombinedOutput (name : string) (args : list string)
  : M (string * option error) :=
  let* tr := getTrace in
  let* _ := emit (ExecCommandCall name args) in
  ret (ExecCombinedOutput rt tr name args).

(** *** [Spec.RunCommand] *)

(** [buffer.WriteString(s)] on a [bytes.Buffer]; the error it returns is
    always nil. *)
Definition WriteString (buffer s : string) : string := buffer +:+ s.

Definition scriptFor (st : BuilderState.t) (command : list string) : string :=
  let buffer := WriteString EmptyString "#!/bin/bash
" in
  let buffer :=
    fold_left (fun buffer v => WriteString buffer ("export " +:+ v +:+ "
")) (BuilderState.Env st) buffer in
  let buffer :=
    if negb (String.eqb (BuilderState.Cwd st) EmptyString)
    then WriteString buffer ("cd " +:+ BuilderState.Cwd st +:+ "
")
    else buffer in
  let buffer :=
    if negb (String.eqb (Manifest.User (BuilderState.Manifest st)) EmptyString)
    then WriteString buffer ("su - " +:+ Manifest.User (BuilderState.Manifest st) +:+ "
")
    else buffer in
  WriteString buffer (Join command " ").

Definition attachOptions : AttachOptions :=
  {| ClearEnv := true; OptCwd := "/root"; OptEnv := MinimalEnv rt |}.

Definition RunCommand (command : list string) : M (option error) :=
  let options := attachOptions in
  let* rootfs := rootfsOf in
  let* st := getState in
  let buffer := scriptFor st command in
  orReturn
    (writeFile (filepathJoin rt [rootfs; "/tmp/dockerfile.sh"]) buffer 493 (* 0755 *))
    (let* c := theContainer in
     let* tr := getTrace in
     let args := ["/bin/bash"; "/tmp/dockerfile.sh"] in
     let* _ := emit (RunCommandStatusCall c args options) in
     let '(exitCode, err) := RunCommandStatus rt tr c args options in
     match err with
     | Some e => ret (Some e)
     | None =>
         if negb (Z.eqb exitCode 0)
         then ret (Some (CommandExitError (Join command " ") exitCode))
         else ret None
     end).

(** *** [Spec.addFiles] *)

Definition addFiles (src dest : string) : M (option error) :=
  let* rootfs := rootfsOf in
  let* tr := getTrace in
  let '(absPath, err) := filepathAbs rt tr src in
  match err with
  | Some e => ret (Some e)
  | None =>
      let base := filepathBase rt absPath in
      let tmpContainer := filepathJoin rt [rootfs; "tmp"; base] in
      let* (_, err) := execCombinedOutput "/bin/cp" ["-ar"; absPath; tmpContainer] in
      match err with
      | Some e => ret (Some e)
      | None =>
          orReturn
            (RunCommand ["cp"; "-r"; filepathJoin rt ["/tmp"; base]; dest])
            (let* err := execRun "/bin/rm" ["-rf"; tmpContainer] in
             match err with
             | Some e => ret (Some e)
             | None => ret None
             end)
      end
  end.

(** *** [Spec.fetchArtifact] *)

Fixpoint fetchLoop (rootfs : string) (labels : list (string * string))
  : M (option error) :=
  match labels with
  | [] => ret None
  | (k, v) :: labels' =>
      if HasPrefix k "nut_artifact_" then
        let artifact := filepathBase rt v in
        orReturn
          (RunCommand ["cp"; "-r"; v; filepathJoin rt ["/tmp"; artifact]])
          (let pathInContainer := filepathJoin rt [rootfs; "tmp"; artifact] in
           let* _ := execRun "/bin/cp" ["-ar"; pathInContainer; artifact] in
           fetchLoop rootfs labels')
      else fetchLoop rootfs labels'
  end.

Definition fetchArtifact : M (option error) :=
  let* rootfs := rootfsOf in
  let* st := getState in
  fetchLoop rootfs (rangeMap rt (Manifest.Labels (BuilderState.Manifest st))).

(** *** [Spec.writeManifest] *)

Definition writeManifest : M (option error) :=
  let* rootfs := rootfsOf in
  let manifestPath := filepathJoin rt [rootfs; "../manifest.yml"] in
  let* st := getState in
  let '(d, err) := yamlMarshal rt (BuilderState.Manifest st) in
  match err with
  | Some e => ret (Some e)
  | None => writeFile manifestPath d 420 (* 0644 *)
  end.

(** *** [Spec.Build] *)

Inductive Directive : Type :=
| FROM | RUN | ENV | WORKDIR | ADD | COPY | LABEL | EXPOSE | MAINTAINER
| USER | VOLUME | STOPSIGNAL | CMD | ENTRYPOINT | Unknown.

Definition Directive_eq_dec (d d' : Directive) : {d = d'} + {d <> d'}.
Proof. decide equality. Defined.

(** The [case] that [switch words[0]] selects. *)
Definition directiveOf (w : string) : Directive :=
  if String.eqb w "FROM" then FROM
  else if String.eqb w "RUN" then RUN
  else if String.eqb w "ENV" then ENV
  else if String.eqb w "WORKDIR" then WORKDIR
  else if String.eqb w "ADD" then ADD
  else if String.eqb w "COPY" then COPY
  else if String.eqb w "LABEL" then LABEL
  else if String.eqb w "EXPOSE" then EXPOSE
  else if String.eqb w "MAINTAINER" then MAINTAINER
  else if String.eqb w "USER" then USER
  else if String.eqb w "VOLUME" then VOLUME
  else if String.eqb w "STOPSIGNAL" then STOPSIGNAL
  else if String.eqb w "CMD" then CMD
  else if String.eqb w "ENTRYPOINT" then ENTRYPOINT
  else Unknown.

Definition setContainer (c : option Container) : M unit :=
  modify (fun st =>
    BuilderState.mk c (BuilderState.Env st) (BuilderState.Cwd st)
      (BuilderState.Manifest st)).

(** [for _, volume := range volumes { ... }] of the FROM case. *)
Fixpoint cloneLoop (name : string) (vols : list string) : M (option error) :=
  match vols with
  | [] => ret None
  | volume :: vols' =>
      let* tr := getTrace in
      let* _ := emit (CloneAndStartContainerCall name id volume) in
      let '(c, err) := CloneAndStartContainer rt tr name id volume in
      let* _ := setContainer c in
      match err with
      | Some e => ret (Some e)
      | None => cloneLoop name vols'
      end
  end.

(** [spec.State.Manifest.Load(name)]; the caller only logs its error. *)
Definition loadManifest (name : string) : M (option error) :=
  let* tr := getTrace in
  let* _ := emit (ManifestLoadCall name) in
  let* st := getState in
  let '(m, err) := ManifestLoad rt tr (BuilderState.Manifest st) name in
  let* _ := modifyManifest (fun _ => m) in
  ret err.

Definition appendEnv (entry : string) : M unit :=
  modify (fun st =>
    let m := BuilderState.Manifest st in
    BuilderState.mk (BuilderState.Container st)
      (BuilderState.Env st ++ [entry])
      (BuilderState.Cwd st)
      (Manifest.mk (Manifest.Labels m) (Manifest.ExposedPorts m)
         (Manifest.Env m ++ [entry]) (Manifest.WorkDir m)
         (Manifest.Maintainers m) (Manifest.User m) (Manifest.EntryPoint m))).

(** [for i := 1; i < len(words); i++ { ... }] of the ENV case, on the
    words from [words[i]] on; the branch without ['='] reads [words[i+1]]
    and steps over it. *)
Fixpoint envLoop (args : list string) : M unit :=
  match args with
  | [] => ret tt
  | w :: rest =>
      if Contains w "=" then
        let* _ := appendEnv w in
        envLoop rest
      else
        match rest with
        | v :: rest' =>
            let* _ := appendEnv (w +:+ "=" +:+ v) in
            envLoop rest'
        | [] => panic IndexOutOfRange
        end
  end.

Definition setLabel (k v : string) : M unit :=
  modifyManifest (fun m =>
    Manifest.mk (<[k := v]> (Manifest.Labels m)) (Manifest.ExposedPorts m)
      (Manifest.Env m) (Manifest.WorkDir m) (Manifest.Maintainers m)
      (Manifest.User m) (Manifest.EntryPoint m)).

(** The loop of the LABEL case, on the words from [words[i]] on. *)
Fixpoint labelLoop (args : list string) : M (option error) :=
  match args with
  | [] => ret None
  | w :: rest =>
      if Contains w "=" then
        let pair := Split w "=" in
        let* k := index pair 0 in
        let* v := index pair 1 in
        let* _ := setLabel k v in
        labelLoop rest
      else logFatalf
  end.

Definition appendPort (port : N) : M unit :=
  modifyManifest (fun m =>
    Manifest.mk (Manifest.Labels m) (Manifest.ExposedPorts m ++ [port])
      (Manifest.Env m) (Manifest.WorkDir m) (Manifest.Maintainers m)
      (Manifest.User m) (Manifest.EntryPoint m)).

(** [for _, p := range words[1:len(words)] { ... }] of the EXPOSE case:
    the error of [ParseUint] is logged, [port] is appended either way. *)
Fixpoint exposeLoop (args : list string) : M unit :=
  match args with
  | [] => ret tt
  | p :: rest =>
      let '(port, _) := ParseUint p in
      let* _ := appendPort port in
      exposeLoop rest
  end.

Definition setEntryPoint (words : list string) : M (option error) :=
  let* st := getState in
  if (List.length (Manifest.EntryPoint (BuilderState.Manifest st)) =? 0)%nat then
    let* _ := modifyManifest (fun m =>
      Manifest.mk (Manifest.Labels m) (Manifest.ExposedPorts m)
        (Manifest.Env m) (Manifest.WorkDir m) (Manifest.Maintainers m)
        (Manifest.User m) (tl words)) in
    ret None
  else
    ret (Some (errors_New "Entrypoint/CMD is already defined. Probably multiple declaration")).

(** The cases of [switch words[0]]: [Some err] when the case executes
    [return err], [None] when the loop goes on. *)
Definition execDirective (d : Directive) (words : list string) : M (option error) :=
  match d with
  | FROM =>
      let* st := getState in
      match BuilderState.Container st with
      | Some _ =>
          ret (Some (errors_New "Container already built. Multiple FROM declaration?"))
      | None =>
          let* base := index words 1 in
          let name := ParentName rt base in
          orReturn (cloneLoop name volumes)
            (let* _ := loadManifest name in
             ret None)
      end
  | RUN =>
      let* st := getState in
      match BuilderState.Container st with
      | None =>
          ret (Some (errors_New "No container has been created yet. Use FROM directive"))
      | Some _ =>
          let command := tl words in
          orReturn (RunCommand command) (ret None)
      end
  | ENV =>
      let* _ := envLoop (tl words) in
      ret None
  | WORKDIR =>
      let* dir := index words 1 in
      let* _ := modify (fun st =>
        let m := BuilderState.Manifest st in
        BuilderState.mk (BuilderState.Container st) (BuilderState.Env st) dir
          (Manifest.mk (Manifest.Labels m) (Manifest.ExposedPorts m)
             (Manifest.Env m) dir (Manifest.Maintainers m) (Manifest.User m)
             (Manifest.EntryPoint m))) in
      ret None
  | ADD | COPY =>
      let* src := index words 1 in
      let* dest := index words 2 in
      orReturn (addFiles src dest) (ret None)
  | LABEL => labelLoop (tl words)
  | EXPOSE =>
      let* _ := exposeLoop (tl words) in
      ret None
  | MAINTAINER =>
      let* _ := modifyManifest (fun m =>
        Manifest.mk (Manifest.Labels m) (Manifest.ExposedPorts m)
          (Manifest.Env m) (Manifest.WorkDir m)
          (Manifest.Maintainers m ++ [Join (tl words) " "])
          (Manifest.User m) (Manifest.EntryPoint m)) in
      ret None
  | USER =>
      let* user := index words 1 in
      let* _ := modifyManifest (fun m =>
        Manifest.mk (Manifest.Labels m) (Manifest.ExposedPorts m)
          (Manifest.Env m) (Manifest.WorkDir m) (Manifest.Maintainers m)
          user (Manifest.EntryPoint m)) in
      ret None
  | VOLUME | STOPSIGNAL => ret None
  | CMD | ENTRYPOINT => setEntryPoint words
  | Unknown => ret None
  end.

(** The body of [for _, statement := range spec.Statements]. *)
Definition execStatement (statement : string) : M (option error) :=
  let words := Fields statement in
  let* keyword := index words 0 in
  execDirective (directiveOf keyword) words.

Fixpoint runStatements (statements : list string) : M (option error) :=
  match statements with
  | [] => ret None
  | statement :: statements' =>
      orReturn (execStatement statement) (runStatements statements')
  end.

(** The [BuilderState] that [Build] starts from. *)
Definition initialState : BuilderState.t :=
  BuilderState.mk None [] EmptyString zeroManifest.

Definition initialConfig : Config := {| state := initialState; trace := [] |}.

Definition buildBody (statements : list string) : M (option error) :=
  orReturn (runStatements statements)
    (orReturn fetchArtifact writeManifest).

End Interpreter.

(** [Build]: what it returns (or how it stops), the [Spec] it leaves and
    the calls it has made. *)
Definition Build (rt : Runtime) (spec : Spec) (volumes : list string)
  : Outcome (option error) * Spec * list Event :=
  let '(out, cfg) := buildBody rt (ID spec) volumes (Statements spec) initialConfig in
  (out, {| ID := ID spec; Statements := Statements spec; State := state cfg |},
   trace cfg).

(** ** [Spec.Stop] and [Spec.Destroy]

    Both only talk to the container behind [spec.State.Container].  The
    driver's answers are taken as they come, as functions of the calls made
    so far; [IsRunning] stands for [State() == lxc.RUNNING]. *)

Inductive LifecycleCall : Type :=
| DefinedCall (c : Container)
| StateCall (c : Container)
| StopCall (c : Container)
| DestroyCall (c : Container).

Record Lifecycle : Type := mkLifecycle {
  Defined : list LifecycleCall -> Container -> bool;
  IsRunning : list LifecycleCall -> Container -> bool;
  ContainerStop : list LifecycleCall -> Container -> option error;
  ContainerDestroy : list LifecycleCall -> Container -> option error
}.

Definition Stop (lc : Lifecycle) (spec : Spec) : option error * list LifecycleCall :=
  match BuilderState.Container (State spec) with
  | None => (Some (errors_New "Container is not initialized"), [])
  | Some c =>
      if negb (Defined lc [] c)
      then (Some (errors_New "Container is not present"), [DefinedCall c])
      else if IsRunning lc [DefinedCall c] c
      then (ContainerStop lc [DefinedCall c; StateCall c] c,
            [DefinedCall c; StateCall c; StopCall c])
      else (None, [DefinedCall c; StateCall c])
  end.

Definition Destroy (lc : Lifecycle) (spec : Spec) : option error * list LifecycleCall :=
  match BuilderState.Container (State spec) with
  | None => (Some (errors_New "Container is not initialized"), [])
  | Some c =>
      if negb (Defined lc [] c)
      then (Some (errors_New "Container is not present"), [DefinedCall c])
      else
        let '(stopped, calls) :=
          if IsRunning lc [DefinedCall c] c
          then (ContainerStop lc [DefinedCall c; StateCall c] c,
                [DefinedCall c; StateCall c; StopCall c])
          else (None, [DefinedCall c; StateCall c]) in
        match stopped with
        | Some err => (Some err, calls)
        | None => (ContainerDestroy lc calls c, calls ++ [DestroyCall c])
        end
  end.

(** * Vocabulary of the properties *)

(** Continuation bytes of UTF-8 are above the ASCII range. *)
Definition isHigh (c : ascii) : bool := 0x80 <=? N_of_ascii c.

Fixpoint allHigh (s : string) : bool :=
  match s with
  | EmptyString => true
  | String c s' => isHigh c && allHigh s'
  end.

Fixpoint leadHigh (s : string) : nat :=
  match s with
  | EmptyString => 0
  | String c s' => if isHigh c then S (leadHigh s') else 0
  end.

Definition highTail (p : string) : bool :=
  match p with
  | EmptyString => false
  | String _ t => allHigh t
  end.

(** A line that ends a statement: not a comment, not a continuation, not
    blank. *)
Definition terminates (line : string) : bool :=
  negb (isComment line) && negb (isExtendedStatement line)
  && negb (String.eqb (TrimSpace line) EmptyString).

(** [cfg] with another container handle. *)
Definition withContainer (c : option Container) (cfg : Config) : Config :=
  {| state :=
       BuilderState.mk c (BuilderState.Env (state cfg))
         (BuilderState.Cwd (state cfg)) (BuilderState.Manifest (state cfg));
     trace := trace cfg |}.

(** The directives that only record metadata, and the [default] case. *)
Definition ignoresContainer (d : Directive) : bool :=
  match d with
  | ENV | WORKDIR | LABEL | EXPOSE | MAINTAINER | USER | VOLUME | STOPSIGNAL
  | CMD | ENTRYPOINT | Unknown => true
  | FROM | RUN | ADD | COPY => false
  end.

(** [m] neither reads nor writes the container handle, and calls nobody. *)
Definition handleBlind {A} (m : M A) : Prop :=
  forall c cfg,
    m (withContainer c cfg) = (fst (m cfg), withContainer c (snd (m cfg))) /\
    trace (snd (m cfg)) = trace cfg.

(** [m] leaves the part [part] of the build state as it found it. *)
Definition keeps {X A} (part : BuilderState.t -> X) (m : M A) : Prop :=
  forall cfg, part (state (snd (m cfg))) = part (state cfg).

(** The container handle together with the manifest's entry point. *)
Definition handleAndEntryPoint (st : BuilderState.t) : option Container * list string :=
  (BuilderState.Container st, Manifest.EntryPoint (BuilderState.Manifest st)).

Definition entryPointOf (cfg : Config) : list string :=
  Manifest.EntryPoint (BuilderState.Manifest (state cfg)).

(** The directive a statement is dispatched to, if it has a first word. *)
Definition directiveOfStatement (statement : string) : option Directive :=
  match Fields statement with
  | keyword :: _ => Some (directiveOf keyword)
  | [] => None
  end.

Definition setsEntryPoint (statement : string) : bool :=
  match directiveOfStatement statement with
  | Some CMD | Some ENTRYPOINT => true
  | _ => false
  end.

Definition hasArgument (statement : string) : bool :=
  match Fields statement with
  | _ :: _ :: _ => true
  | _ => false
  end.

Definition isFROM (statement : string) : bool :=
  match directiveOfStatement statement with
  | Some FROM => true
  | _ => false
  end.

Definition entryPointError : error :=
  errors_New "Entrypoint/CMD is already defined. Probably multiple declaration".

Definition multipleFromError : error :=
  errors_New "Container already built. Multiple FROM declaration?".

(** A successful [CloneAndStartContainer] hands back a handle. *)
Definition cloneGivesHandle (rt : Runtime) : Prop :=
  forall tr name id volume c,
    CloneAndStartContainer rt tr name id volume = (c, None) -> c <> None.

(** What [Build] leaves in [spec] when it stops in configuration [cfg]. *)
Definition specAfter (spec : Spec) (cfg : Config) : Spec :=
  {| ID := ID spec; Statements := Statements spec; State := state cfg |}.

(** The entries an ENV statement contributes, in the spec's words: an
    argument [KEY=VALUE] is an entry as it stands, a [KEY] followed by a
    separate [VALUE] gives the entry [KEY=VALUE]. *)
Fixpoint envEntries (args : list string) : list string :=
  match args with
  | [] => []
  | w :: rest =>
      if Contains w "=" then w :: envEntries rest
      else
        match rest with
        | v :: rest' => (w +:+ "=" +:+ v) :: envEntries rest'
        | [] => []
        end
  end.

(** The last argument is a [KEY] with no [VALUE] after it. *)
Fixpoint envDangling (args : list string) : bool :=
  match args with
  | [] => false
  | w :: rest =>
      if Contains w "=" then envDangling rest
      else
        match rest with
        | _ :: rest' => envDangling rest'
        | [] => true
        end
  end.

Definition liveEnv (cfg : Config) : list string := BuilderState.Env (state cfg).

Definition manifestEnv (cfg : Config) : list string :=
  Manifest.Env (BuilderState.Manifest (state cfg)).

Definition labelsOf (cfg : Config) : gmap string string :=
  Manifest.Labels (BuilderState.Manifest (state cfg)).

Definition exposedPortsOf (cfg : Config) : list N :=
  Manifest.ExposedPorts (BuilderState.Manifest (state cfg)).

Definition concatAll (pieces : list string) : string :=
  fold_right String.append EmptyString pieces.

(** The script in the spec's words: the shebang line, one export line for
    each entry of the live environment, a [cd] line when a working directory
    is set, a [su] line when a user is set, and the command, its tokens
    joined by spaces, as the last line. *)
Definition scriptLines (st : BuilderState.t) (command : list string) : list string :=
  ["#!/bin/bash
"]
  ++ map (fun v => "export " +:+ v +:+ "
") (BuilderState.Env st)
  ++ (if String.eqb (BuilderState.Cwd st) EmptyString then []
      else ["cd " +:+ BuilderState.Cwd st +:+ "
"])
  ++ (if String.eqb (Manifest.User (BuilderState.Manifest st)) EmptyString then []
      else ["su - " +:+ Manifest.User (BuilderState.Manifest st) +:+ "
"])
  ++ [Join command " "].

Definition isRunCommandStatusCall (e : Event) : bool :=
  match e with
  | RunCommandStatusCall _ _ _ => true
  | _ => false
  end.

(** ** Sample inputs *)

Definition sampleScript : string :=
  "# image
FROM base
RUN apt-get update && \
# tools
    apt-get install -y make
CMD /bin/sh
".

Definition sampleFiles : FileSystem :=
  fun file =>
    if String.eqb file "Dockerfile" then inl sampleScript
    else inr (ExternalError "open: no such file or directory").

(** A runtime where every collaborator succeeds. *)
Definition quietRuntime : Runtime :=
  {| ParentName := fun image => image;
     MinimalEnv := ["PATH=/usr/sbin:/usr/bin:/sbin:/bin"];
     CloneAndStartContainer := fun _ _ _ _ => (Some (ContainerRef 1), None);
     ManifestLoad := fun _ m _ => (m, None);
     ConfigItem := fun _ _ _ => ["/var/lib/lxc/nut/rootfs"];
     RunCommandStatus := fun _ _ _ _ => (0%Z, None);
     WriteFile := fun _ _ _ _ => None;
     ExecRun := fun _ _ _ => None;
     ExecCombinedOutput := fun _ _ _ => (EmptyString, None);
     filepathAbs := fun _ path => (path, None);
     filepathBase := fun path => path;
     filepathJoin := fun elems => Join elems "/";
     yamlMarshal := fun _ => (EmptyString, None);
     rangeMap := map_to_list |}.

Definition specOf (statements : list string) : Spec :=
  {| ID := "nut"; Statements := statements; State := zeroState |}.

(** A runtime whose host file system refuses every write, while the driver
    would run any command with exit code 0. *)
Definition readOnlyRuntime : Runtime :=
  {| ParentName := ParentName quietRuntime;
     MinimalEnv := MinimalEnv quietRuntime;
     CloneAndStartContainer := CloneAndStartContainer quietRuntime;
     ManifestLoad := ManifestLoad quietRuntime;
     ConfigItem := ConfigItem quietRuntime;
     RunCommandStatus := fun _ _ _ _ => (0%Z, None);
     WriteFile := fun _ _ _ _ => Some (ExternalError "read-only file system");
     ExecRun := ExecRun quietRuntime;
     ExecCombinedOutput := ExecCombinedOutput quietRuntime;
     filepathAbs := filepathAbs quietRuntime;
     filepathBase := filepathBase quietRuntime;
     filepathJoin := filepathJoin quietRuntime;
     yamlMarshal := yamlMarshal quietRuntime;
     rangeMap := rangeMap quietRuntime |}.

Definition sampleConfig : Config :=
  {| state :=
       BuilderState.mk (Some (ContainerRef 1)) ["A=1"] "/srv"
         (Manifest.mk ∅ [] ["A=1"] "/srv" [] "app" []);
     trace := [] |}.

(** * Vocabulary of the further properties *)

(** A line the scanning loop passes over whatever the accumulator holds: a
    comment, or a line that is blank and no continuation. *)
Definition ignored (line : string) : bool :=
  isComment line
  || (negb (isExtendedStatement line) && String.eqb (TrimSpace line) EmptyString).

(** The statement a terminating line completes. *)
Definition completed (previous line : string) : string :=
  if negb (String.eqb previous EmptyString) then previous +:+ " " +:+ line
  else line.

Fixpoint hasByte (c : ascii) (s : string) : bool :=
  match s with
  | EmptyString => false
  | String a s' => Ascii.eqb a c || hasByte c s'
  end.

Definition lineFeed : string := String "010" EmptyString.

Definition carriageReturnLineFeed : string := String "013" lineFeed.

(** The text whose lines are [lines], each closed by [eol]. *)
Definition unlines (eol : string) (lines : list string) : string :=
  concatAll (map (fun l => l +:+ eol) lines).

(** A line without line feed or carriage return that, with its end-of-line
    marker, fits the scanner's buffer. *)
Definition plainLine (l : string) : bool :=
  negb (hasByte "010" l) && negb (hasByte "013" l)
  && (N.of_nat (String.length l) + 1 <? MaxScanTokenSize).

(** What the loop keeps true of the accumulator and of the statements. *)
Definition wellShaped (st : ParseState) : Prop :=
  isComment (fst st) = false /\
  Forall (fun s => isExtendedStatement s = false /\ isComment s = false) (snd st).

Definition sampleLines : list string :=
  ["FROM base"; "RUN make \"; "  install"; EmptyString; "CMD /bin/sh"].

Definition lineEndingFiles : FileSystem :=
  fun file =>
    if String.eqb file "Dockerfile.unix" then inl (unlines lineFeed sampleLines)
    else inl (unlines carriageReturnLineFeed sampleLines).

(** A decimal numeral: only the bytes ['0'] to ['9']. *)
Fixpoint allDigits (s : string) : bool :=
  match s with
  | EmptyString => true
  | String c s' =>
      (48 <=? N_of_ascii c) && (N_of_ascii c <=? 57) && allDigits s'
  end.

(** The number a decimal numeral denotes, read after the digits of [n]. *)
Fixpoint decimalFrom (n : N) (s : string) : N :=
  match s with
  | EmptyString => n
  | String c s' => decimalFrom (n * 10 + (N_of_ascii c - 48)) s'
  end.

Definition decimalValue (s : string) : N := decimalFrom 0 s.

(** A statement of a case that does nothing: VOLUME, STOPSIGNAL, or a
    keyword the [switch] does not know. *)
Definition doesNothing (statement : string) : bool :=
  match directiveOfStatement statement with
  | Some VOLUME | Some STOPSIGNAL | Some Unknown => true
  | _ => false
  end.

(** The build state with the fields blanked that the case of directive [d]
    may assign: what is left is what the case must leave alone. *)
Definition untouchedBy (d : Directive) (st : BuilderState.t) : BuilderState.t :=
  let m := BuilderState.Manifest st in
  let withManifest m' :=
    BuilderState.mk (BuilderState.Container st) (BuilderState.Env st)
      (BuilderState.Cwd st) m' in
  match d with
  | FROM =>
      BuilderState.mk None (BuilderState.Env st) (BuilderState.Cwd st) zeroManifest
  | ENV =>
      BuilderState.mk (BuilderState.Container st) [] (BuilderState.Cwd st)
        (Manifest.mk (Manifest.Labels m) (Manifest.ExposedPorts m) []
           (Manifest.WorkDir m) (Manifest.Maintainers m) (Manifest.User m)
           (Manifest.EntryPoint m))
  | WORKDIR =>
      BuilderState.mk (BuilderState.Container st) (BuilderState.Env st) EmptyString
        (Manifest.mk (Manifest.Labels m) (Manifest.ExposedPorts m) (Manifest.Env m)
           EmptyString (Manifest.Maintainers m) (Manifest.User m)
           (Manifest.EntryPoint m))
  | LABEL =>
      withManifest
        (Manifest.mk ∅ (Manifest.ExposedPorts m) (Manifest.Env m)
           (Manifest.WorkDir m) (Manifest.Maintainers m) (Manifest.User m)
           (Manifest.EntryPoint m))
  | EXPOSE =>
      withManifest
        (Manifest.mk (Manifest.Labels m) [] (Manifest.Env m)
           (Manifest.WorkDir m) (Manifest.Maintainers m) (Manifest.User m)
           (Manifest.EntryPoint m))
  | MAINTAINER =>
      withManifest
        (Manifest.mk (Manifest.Labels m) (Manifest.ExposedPorts m) (Manifest.Env m)
           (Manifest.WorkDir m) [] (Manifest.User m) (Manifest.EntryPoint m))
  | USER =>
      withManifest
        (Manifest.mk (Manifest.Labels m) (Manifest.ExposedPorts m) (Manifest.Env m)
           (Manifest.WorkDir m) (Manifest.Maintainers m) EmptyString
           (Manifest.EntryPoint m))
  | CMD | ENTRYPOINT =>
      withManifest
        (Manifest.mk (Manifest.Labels m) (Manifest.ExposedPorts m) (Manifest.Env m)
           (Manifest.WorkDir m) (Manifest.Maintainers m) (Manifest.User m) [])
  | RUN | ADD | COPY | VOLUME | STOPSIGNAL | Unknown => withManifest m
  end.

Definition cwdOf (cfg : Config) : string := BuilderState.Cwd (state cfg).

Definition workDirOf (cfg : Config) : string :=
  Manifest.WorkDir (BuilderState.Manifest (state cfg)).

Definition handleOf (cfg : Config) : option Container :=
  BuilderState.Container (state cfg).

(** A build state as a FROM and a CMD leave it. *)
Definition startedConfig : Config :=
  {| state :=
       BuilderState.mk (Some (ContainerRef 1)) [] EmptyString
         (Manifest.mk ∅ [] [] EmptyString [] EmptyString ["/bin/sh"]);
     trace := [] |}.

Definition sampleStatements : list string :=
  ["ENV A=1 B 2"; "WORKDIR /srv"; "CMD /init"; "RUN make"].

(** The clone calls the FROM case makes for the volumes [vols]. *)
Definition cloneCalls (name id : string) (vols : list string) : list Event :=
  map (CloneAndStartContainerCall name id) vols.


(** The script written for [command] and the request to run it. *)
Definition scriptWritten (rt : Runtime) (rootfs : string) (st : BuilderState.t)
           (command : list string) : Event :=
  WriteFileCall (filepathJoin rt [rootfs; "/tmp/dockerfile.sh"])
    (scriptFor st command) 493.

Definition scriptAsked (rt : Runtime) (c : Container) : Event :=
  RunCommandStatusCall c ["/bin/bash"; "/tmp/dockerfile.sh"] (attachOptions rt).

(** A build state with a container and two artifact labels. *)
Definition artifactConfig : Config :=
  {| state :=
       BuilderState.mk (Some (ContainerRef 1)) [] EmptyString
         (Manifest.mk
            (<["nut_artifact_bin" := "/build/out"]>
               (<["nut_artifact_doc" := "/build/doc"]> (<["maintainer" := "me"]> ∅)))
            [] [] EmptyString [] EmptyString []);
     trace := [] |}.

(** [rt] with another answer to every host command run through
    [cmd.Run()]. *)
Definition withExecRun (rt : Runtime)
           (answer : list Event -> string -> list string -> option error) : Runtime :=
  {| ParentName := ParentName rt;
     MinimalEnv := MinimalEnv rt;
     CloneAndStartContainer := CloneAndStartContainer rt;
     ManifestLoad := ManifestLoad rt;
     ConfigItem := ConfigItem rt;
     RunCommandStatus := RunCommandStatus rt;
     WriteFile := WriteFile rt;
     ExecRun := answer;
     ExecCombinedOutput := ExecCombinedOutput rt;
     filepathAbs := filepathAbs rt;
     filepathBase := filepathBase rt;
     filepathJoin := filepathJoin rt;
     yamlMarshal := yamlMarshal rt;
     rangeMap := rangeMap rt |}.

(** A running container that refuses to stop. *)
Definition stubbornLifecycle : Lifecycle :=
  {| Defined := fun _ _ => true;
     IsRunning := fun _ _ => true;
     ContainerStop := fun _ _ => Some (ExternalError "stop timed out");
     ContainerDestroy := fun _ _ => None |}.

(** A container that is there and not running. *)
Definition idleLifecycle : Lifecycle :=
  {| Defined := fun _ _ => true;
     IsRunning := fun _ _ => false;
     ContainerStop := fun _ _ => None;
     ContainerDestroy := fun _ _ => None |}.

Definition builtSpec : Spec :=
  {| ID := "nut"; Statements := ["FROM base"]; State := state sampleConfig |}.

(** The host commands among the calls of a record. *)
Definition isHostCommand (e : Event) : bool :=
  match e with
  | ExecCommandCall _ _ => true
  | _ => false
  end.

Definition hostCommands (calls : list Event) : list Event :=
  List.filter isHostCommand calls.

Definition isArtifact (label : string * string) : bool :=
  HasPrefix (fst label) "nut_artifact_".

(** The copy of one artifact from the container's [tmp] to the host. *)
Definition hostCopy (rt : Runtime) (rootfs : string) (label : string * string) : Event :=
  let artifact := filepathBase rt (snd label) in
  ExecCommandCall "/bin/cp" ["-ar"; filepathJoin rt [rootfs; "tmp"; artifact]; artifact].

(** * Properties of the parser *)

Section StringFacts.

Lemma append_cons_nonempty (s : string) (c : ascii) (t : string) :
  s +:+ String c t <> EmptyString.
Proof. destruct s; discriminate. Qed.

Lemma append_empty_r (s : string) : s +:+ EmptyString = s.
Proof.
  induction s as [| c s IH]; [reflexivity |].
  change (String c (s +:+ EmptyString) = String c s). now rewrite IH.
Qed.

Lemma append_assoc (s t u : string) : (s +:+ t) +:+ u = s +:+ t +:+ u.
Proof.
  induction s as [| c s IH]; [reflexivity |].
  change (String c ((s +:+ t) +:+ u) = String c (s +:+ t +:+ u)).
  now rewrite IH.
Qed.

Lemma append_nonempty_l (s t : string) : s <> EmptyString -> s +:+ t <> EmptyString.
Proof. destruct s; [congruence | discriminate]. Qed.

Lemma nonempty_eqb (s : string) :
  s <> EmptyString -> negb (String.eqb s EmptyString) = true.
Proof. destruct s; [congruence | reflexivity]. Qed.

Lemma eqb_empty_false (s : string) :
  String.eqb s EmptyString = false -> s <> EmptyString.
Proof. intros H ->. discriminate. Qed.

Lemma strRev_append (s t : string) : strRev (s +:+ t) = strRev t +:+ strRev s.
Proof.
  induction s as [| c s IH].
  - cbn. now rewrite append_empty_r.
  - change (strRev (String c (s +:+ t)) = strRev t +:+ strRev (String c s)).
    cbn [strRev]. now rewrite IH, append_assoc.
Qed.

Lemma strRev_involutive (s : string) : strRev (strRev s) = s.
Proof.
  induction s as [| c s IH]; [reflexivity |].
  cbn [strRev]. rewrite strRev_append, IH. reflexivity.
Qed.

Lemma strRev_empty (s : string) : strRev s = EmptyString -> s = EmptyString.
Proof.
  intros H. rewrite <- (strRev_involutive s), H. reflexivity.
Qed.

Lemma HasPrefix_append (p r : string) : HasPrefix (p +:+ r) p = true.
Proof.
  induction p as [| c p IH]; [reflexivity |].
  change (HasPrefix (String c (p +:+ r)) (String c p) = true).
  cbn [HasPrefix]. now rewrite Ascii.eqb_refl, IH.
Qed.

Lemma HasPrefix_split (p : string) :
  forall s, HasPrefix s p = true -> exists r, s = p +:+ r.
Proof.
  induction p as [| c p IH]; intros s Hp.
  - now exists s.
  - destruct s as [| a s]; [discriminate |]. cbn [HasPrefix] in Hp.
    apply andb_prop in Hp as [Ha Hs]. apply Ascii.eqb_eq in Ha. subst a.
    destruct (IH s Hs) as [r ->]. now exists r.
Qed.

End StringFacts.

Section ParserFacts.

Lemma flush_nonempty (cur : string) : cur <> EmptyString -> flush cur = [cur].
Proof. destruct cur; [congruence | reflexivity]. Qed.

(** A field that has been started is never lost. *)
Lemma fieldsFrom_started (s : string) :
  forall skip cur, cur <> EmptyString -> fieldsFrom skip cur s <> [].
Proof.
  induction s as [| c s IH]; intros skip cur Hcur; simpl.
  - rewrite flush_nonempty by assumption. discriminate.
  - destruct skip as [| k]; [| now apply IH].
    destruct (spaceWidth (String c s)).
    + apply IH, append_cons_nonempty.
    + rewrite flush_nonempty by assumption. discriminate.
Qed.

Lemma fieldsFrom_fields_nonempty (s : string) :
  forall skip cur, Forall (fun w => w <> EmptyString) (fieldsFrom skip cur s).
Proof.
  assert (Hflush : forall cur, Forall (fun w => w <> EmptyString) (flush cur)).
  { intros [| a cur]; simpl; repeat constructor. discriminate. }
  induction s as [| c s IH]; intros skip cur; simpl; [apply Hflush |].
  destruct skip as [| k]; [| apply IH].
  destruct (spaceWidth (String c s)); [apply IH |].
  apply Forall_app; split; [apply Hflush | apply IH].
Qed.

Lemma spaceEncodings_highTail : forallb highTail spaceEncodings = true.
Proof. vm_compute. reflexivity. Qed.

Lemma HasPrefix_high (t : string) :
  forall r, allHigh t = true -> HasPrefix r t = true ->
            (String.length t <= leadHigh r)%nat.
Proof.
  induction t as [| a t IH]; intros r Hall Hpre; simpl in *; [lia |].
  destruct r as [| c r]; [discriminate |].
  apply andb_prop in Hall as [Ha Ht]. apply andb_prop in Hpre as [Hc Hr].
  apply Ascii.eqb_eq in Hc. subst a. simpl. rewrite Ha.
  specialize (IH r Ht Hr). lia.
Qed.

(** The bytes of a white-space rune after its first are all high, so the
    rune cannot reach over an ASCII byte. *)
Lemma spaceWidth_tail (c : ascii) (r : string) (w : nat) :
  spaceWidth (String c r) = S w -> (w <= leadHigh r)%nat.
Proof.
  unfold spaceWidth, widthOf.
  destruct (find (HasPrefix (String c r)) spaceEncodings) as [p |] eqn:Hfind;
    [| discriminate].
  apply find_some in Hfind as [Hin Hpre].
  pose proof spaceEncodings_highTail as Hall.
  rewrite forallb_forall in Hall. specialize (Hall p Hin).
  destruct p as [| a t]; [discriminate |].
  simpl in *. apply andb_prop in Hpre as [_ Hpre].
  intros [= <-]. now apply HasPrefix_high.
Qed.

Lemma spaceWidth_space (l : string) : spaceWidth (String " " l) = 1%nat.
Proof. vm_compute. reflexivity. Qed.

(** Whatever precedes it, a separating space brings the scan of [Fields]
    to the start of the text that follows. *)
Lemma fieldsFrom_after_space (l : string) (p : string) :
  forall skip cur,
    (skip <= leadHigh (p +:+ String " " l))%nat ->
    fieldsFrom 0 EmptyString l <> [] ->
    fieldsFrom skip cur (p +:+ String " " l) <> [].
Proof.
  induction p as [| c p IH]; intros skip cur Hskip Hl.
  - simpl in Hskip. assert (skip = 0%nat) as -> by lia.
    change (EmptyString +:+ String " " l) with (String " " l).
    cbn [fieldsFrom]. rewrite spaceWidth_space.
    intros Heq. apply app_eq_nil in Heq as [_ Heq]. contradiction.
  - change (String c p +:+ String " " l) with (String c (p +:+ String " " l)) in *.
    cbn [fieldsFrom]. destruct skip as [| k].
    + destruct (spaceWidth (String c (p +:+ String " " l))) as [| w] eqn:Hw.
      * apply fieldsFrom_started, append_cons_nonempty.
      * intros Heq. apply app_eq_nil in Heq as [_ Heq]. revert Heq.
        apply IH; [| assumption]. now apply spaceWidth_tail with (c := c).
    + apply IH; [| assumption].
      simpl in Hskip. destruct (isHigh c); lia.
Qed.

Lemma trimLeft_no_fields (s : string) :
  forall skip, fieldsFrom skip EmptyString s = [] ->
               trimLeftFrom spaceEncodings skip s = EmptyString.
Proof.
  induction s as [| c s IH]; intros skip Hf; simpl in *; [reflexivity |].
  destruct skip as [| k]; [| now apply IH].
  fold (spaceWidth (String c s)).
  destruct (spaceWidth (String c s)) as [| w].
  - exfalso. revert Hf. apply fieldsFrom_started. discriminate.
  - now apply IH.
Qed.

(** A line that [TrimSpace] does not empty has a field. *)
Lemma TrimSpace_Fields (line : string) :
  TrimSpace line <> EmptyString -> Fields line <> [].
Proof.
  intros Htrim Hf. apply Htrim. unfold TrimSpace, trimLeftSpace.
  unfold Fields in Hf. now rewrite (trimLeft_no_fields _ _ Hf).
Qed.

(** *** The converse: a string with a field is not emptied by [TrimSpace] *)

Lemma length_append (s t : string) :
  String.length (s +:+ t) = (String.length s + String.length t)%nat.
Proof.
  induction s as [| c s IH]; [reflexivity |].
  change (S (String.length (s +:+ t)) = S (String.length s + String.length t)).
  now rewrite IH.
Qed.

Lemma trimLeftFrom_skip (encodings : list string) (a : string) :
  forall b,
    trimLeftFrom encodings (String.length a) (a +:+ b)
    = trimLeftFrom encodings 0 b.
Proof.
  induction a as [| c a IH]; intros b; [reflexivity |].
  change (String c a +:+ b) with (String c (a +:+ b)).
  cbn [String.length trimLeftFrom]. apply IH.
Qed.

Lemma widthOf_found (encodings : list string) (s : string) (w : nat) :
  widthOf encodings s = S w ->
  exists q r, In q encodings /\ s = q +:+ r /\ String.length q = S w.
Proof.
  unfold widthOf.
  destruct (find (HasPrefix s) encodings) as [q |] eqn:Hfind; [| discriminate].
  apply find_some in Hfind as [Hin Hpre]. intros Hlen.
  destruct (HasPrefix_split q s Hpre) as [r ->]. now exists q, r.
Qed.

Lemma widthOf_prefix (encodings : list string) (t p : string) :
  forallb (fun q => negb (String.eqb q EmptyString)) encodings = true ->
  In p encodings -> HasPrefix t p = true -> widthOf encodings t <> 0%nat.
Proof.
  intros Hne Hin Hpre. unfold widthOf.
  destruct (find (HasPrefix t) encodings) as [q |] eqn:Hfind.
  - apply find_some in Hfind as [Hq _].
    rewrite forallb_forall in Hne. specialize (Hne q Hq).
    destruct q; [discriminate | discriminate].
  - pose proof (find_none _ _ Hfind p Hin) as Hno. congruence.
Qed.

(** A string that the scan consumes to the end is made of encodings, the
    last of which is its tail. *)
Lemma trimLeftFrom_consumed (encodings : list string) (n : nat) :
  forall u,
    (String.length u <= n)%nat -> u <> EmptyString ->
    trimLeftFrom encodings 0 u = EmptyString ->
    exists r q, In q encodings /\ u = r +:+ q.
Proof.
  induction n as [| n IH]; intros u Hlen Hne Htrim.
  { destruct u; [congruence | simpl in Hlen; lia]. }
  destruct u as [| c u']; [congruence |].
  cbn [trimLeftFrom] in Htrim.
  destruct (widthOf encodings (String c u')) as [| w] eqn:Hw; [discriminate |].
  destruct (widthOf_found _ _ _ Hw) as [q [r0 [Hin [Hu Hq]]]].
  destruct q as [| c' q']; [discriminate |].
  change (String c' q' +:+ r0) with (String c' (q' +:+ r0)) in Hu.
  injection Hu as -> ->. injection Hq as <-.
  rewrite trimLeftFrom_skip in Htrim.
  destruct r0 as [| a r0'].
  - exists EmptyString, (String c' q'). now rewrite append_empty_r.
  - destruct (IH (String a r0')) as [r' [q'' [Hin' Hr]]];
      [| discriminate | assumption |].
    + simpl in Hlen. rewrite length_append in Hlen. simpl in *. lia.
    + exists (String c' q' +:+ r'), q''. split; [assumption |].
      rewrite append_assoc, <- Hr. reflexivity.
Qed.

Lemma spaceEncodings_nonempty :
  forallb (fun q => negb (String.eqb q EmptyString)) spaceEncodings = true.
Proof. vm_compute. reflexivity. Qed.

Lemma trimLeft_reaches_field (s : string) :
  forall skip,
    fieldsFrom skip EmptyString s <> [] ->
    trimLeftFrom spaceEncodings skip s <> EmptyString /\
    spaceWidth (trimLeftFrom spaceEncodings skip s) = 0%nat.
Proof.
  induction s as [| c s IH]; intros skip Hf; cbn [fieldsFrom trimLeftFrom] in *.
  - now contradiction Hf.
  - destruct skip as [| k]; [| now apply IH].
    fold (spaceWidth (String c s)).
    destruct (spaceWidth (String c s)) as [| w] eqn:Hw.
    + split; [discriminate | exact Hw].
    + now apply IH.
Qed.

(** A string with a field is not emptied by [TrimSpace]. *)
Lemma Fields_TrimSpace (s : string) :
  Fields s <> [] -> TrimSpace s <> EmptyString.
Proof.
  intros Hf Htrim. unfold Fields in Hf.
  destruct (trimLeft_reaches_field s 0 Hf) as [Hne Hw].
  unfold TrimSpace, trimRightSpace, trimLeftSpace in Htrim.
  set (t := trimLeftFrom spaceEncodings 0 s) in *.
  apply strRev_empty in Htrim.
  assert (Hrev : strRev t <> EmptyString).
  { intros H. apply strRev_empty in H. contradiction. }
  destruct (trimLeftFrom_consumed _ _ (strRev t) (le_n _) Hrev Htrim)
    as [r [q [Hin Hu]]].
  apply in_map_iff in Hin as [p [<- Hp]].
  assert (Ht : t = p +:+ strRev r).
  { rewrite <- (strRev_involutive t), Hu, strRev_append, strRev_involutive.
    reflexivity. }
  apply (widthOf_prefix spaceEncodings t p spaceEncodings_nonempty Hp);
    [| exact Hw].
  rewrite Ht. apply HasPrefix_append.
Qed.

Lemma Fields_joined (previous line : string) :
  Fields line <> [] -> Fields (previous +:+ " " +:+ line) <> [].
Proof.
  intros Hl. unfold Fields. apply fieldsFrom_after_space; [lia | exact Hl].
Qed.

(** Every statement the loop appends has a field. *)
Lemma parseLine_fields (st : ParseState) (line : string) :
  Forall (fun s => Fields s <> []) (snd st) ->
  Forall (fun s => Fields s <> []) (snd (parseLine st line)).
Proof.
  destruct st as [previous statements]. unfold parseLine. simpl.
  intros Hall.
  destruct (isComment line); [exact Hall |].
  destruct (isExtendedStatement line).
  { destruct (negb _); exact Hall. }
  destruct (String.eqb (TrimSpace line) EmptyString) eqn:Htrim; [exact Hall |].
  apply eqb_empty_false, TrimSpace_Fields in Htrim.
  destruct (negb _); simpl; apply Forall_app; split; try assumption;
    repeat constructor; [now apply Fields_joined | assumption].
Qed.

Lemma parseLines_cons (line : string) (lines : list string) (st : ParseState) :
  parseLines (line :: lines) st = parseLines lines (parseLine st line).
Proof. reflexivity. Qed.

Lemma parseLines_fields (lines : list string) :
  forall st, Forall (fun s => Fields s <> []) (snd st) ->
             Forall (fun s => Fields s <> []) (snd (parseLines lines st)).
Proof.
  induction lines as [| line lines IH]; intros st Hall; [exact Hall |].
  rewrite parseLines_cons. apply IH, parseLine_fields, Hall.
Qed.

(** The statements already held are kept, and what is appended does not
    depend on them. *)
Lemma parseLine_appends (previous : string) (held statements : list string)
      (line : string) :
  parseLine (previous, held ++ statements) line =
  (fst (parseLine (previous, statements) line),
   held ++ snd (parseLine (previous, statements) line)).
Proof.
  unfold parseLine.
  destruct (isComment line); [reflexivity |].
  destruct (isExtendedStatement line).
  { destruct (negb _); reflexivity. }
  destruct (String.eqb (TrimSpace line) EmptyString); [reflexivity |].
  destruct (negb _); simpl; now rewrite app_assoc.
Qed.

Lemma parseLines_appends (lines : list string) :
  forall previous held statements,
    parseLines lines (previous, held ++ statements) =
    (fst (parseLines lines (previous, statements)),
     held ++ snd (parseLines lines (previous, statements))).
Proof.
  induction lines as [| line lines IH]; intros previous held statements.
  - reflexivity.
  - rewrite !parseLines_cons, parseLine_appends.
    destruct (parseLine (previous, statements) line) as [p s].
    apply IH.
Qed.

(** A comment line can be inserted anywhere without changing the result. *)
Lemma parseLines_comment (before after : list string) (comment : string)
      (st : ParseState) :
  isComment comment = true ->
  parseLines (before ++ comment :: after) st = parseLines (before ++ after) st.
Proof.
  intros Hc. unfold parseLines. rewrite !fold_left_app. simpl.
  destruct (fold_left parseLine before st) as [p s].
  unfold parseLine at 2. now rewrite Hc.
Qed.

End ParserFacts.

Section Continuation.

(** A line that does not terminate leaves [spec.Statements] alone and at
    most extends a pending accumulator. *)
Lemma parseLine_pending (pending : string) (statements : list string)
      (line : string) :
  pending <> EmptyString -> terminates line = false ->
  exists extra, parseLine (pending, statements) line = (pending +:+ extra, statements).
Proof.
  intros Hp Hterm. unfold terminates in Hterm. unfold parseLine.
  destruct (isComment line).
  { exists EmptyString. now rewrite append_empty_r. }
  destruct (isExtendedStatement line).
  { rewrite (nonempty_eqb _ Hp). now eexists. }
  destruct (String.eqb (TrimSpace line) EmptyString); [| discriminate].
  exists EmptyString. now rewrite append_empty_r.
Qed.

Lemma parseLines_pending (lines : list string) :
  forall pending statements,
    pending <> EmptyString ->
    Forall (fun l => terminates l = false) lines ->
    exists extra,
      parseLines lines (pending, statements) = (pending +:+ extra, statements).
Proof.
  induction lines as [| line lines IH]; intros pending statements Hp Hall.
  - exists EmptyString. now rewrite append_empty_r.
  - inversion Hall as [| ? ? Hline Hrest]; subst.
    destruct (parseLine_pending pending statements line Hp Hline) as [e1 He1].
    rewrite parseLines_cons, He1.
    destruct (IH (pending +:+ e1) statements (append_nonempty_l _ _ Hp) Hrest)
      as [e2 He2].
    exists (e1 +:+ e2). now rewrite He2, append_assoc.
Qed.

Lemma parseLine_terminates (pending : string) (statements : list string)
      (line : string) :
  pending <> EmptyString -> terminates line = true ->
  parseLine (pending, statements) line =
  (EmptyString, statements ++ [pending +:+ " " +:+ line]).
Proof.
  intros Hp Hterm. unfold terminates in Hterm.
  apply andb_prop in Hterm as [Hterm Hblank].
  apply andb_prop in Hterm as [Hcomment Hext].
  unfold parseLine.
  destruct (isComment line); [discriminate |].
  destruct (isExtendedStatement line); [discriminate |].
  destruct (String.eqb (TrimSpace line) EmptyString); [discriminate |].
  now rewrite (nonempty_eqb _ Hp).
Qed.

End Continuation.

(** C7: a comment line read while a continuation is pending changes neither
    the accumulator nor the statements; as long as the lines that follow are
    comments, continuations or blank nothing is emitted, the accumulator
    only grows; the first line that is none of these emits the accumulated
    statement, joined to it by a space. *)
Theorem C7_comment_inside_continuation
        (pending : string) (statements : list string)
        (comment : string) (skipped : list string) (line : string) :
  pending <> EmptyString ->
  isComment comment = true ->
  Forall (fun l => terminates l = false) skipped ->
  terminates line = true ->
  parseLine (pending, statements) comment = (pending, statements) /\
  exists extra,
    parseLines (comment :: skipped) (pending, statements)
      = (pending +:+ extra, statements) /\
    parseLines (comment :: skipped ++ [line]) (pending, statements)
      = (EmptyString, statements ++ [pending +:+ extra +:+ " " +:+ line]).
Proof.
  intros Hp Hc Hskipped Hline.
  assert (Hstep : parseLine (pending, statements) comment = (pending, statements)).
  { unfold parseLine. now rewrite Hc. }
  split; [exact Hstep |].
  destruct (parseLines_pending skipped pending statements Hp Hskipped) as [extra He].
  exists extra. rewrite !parseLines_cons, Hstep. split; [exact He |].
  unfold parseLines in *. rewrite fold_left_app, He. cbn [fold_left].
  rewrite parseLine_terminates; [| now apply append_nonempty_l | assumption].
  now rewrite append_assoc.
Qed.

Lemma C7_comment_inside_continuation_witness :
  parseLine ("RUN make", ["FROM base"]) "# build"
    = ("RUN make", ["FROM base"]) /\
  exists extra,
    parseLines ["# build"; EmptyString; "  all \"] ("RUN make", ["FROM base"])
      = ("RUN make" +:+ extra, ["FROM base"]) /\
    parseLines ("# build" :: [EmptyString; "  all \"] ++ ["install"]) ("RUN make", ["FROM base"])
      = (EmptyString, ["FROM base"] ++ ["RUN make" +:+ extra +:+ " " +:+ "install"]).
Proof.
  apply (C7_comment_inside_continuation
           "RUN make" ["FROM base"] "# build" [EmptyString; "  all \"] "install").
  - discriminate.
  - reflexivity.
  - repeat constructor.
  - vm_compute. reflexivity.
Defined.

(** C9: parsing a script is a function of its text.  Whatever the [Spec]
    held before, [Parse] appends to [spec.Statements] exactly the statements
    that parsing the same file into a fresh [Spec] yields, and it returns
    the same error; two fresh parses give the same statements. *)
Theorem C9_parse_is_repeatable (fs : FileSystem) (file : string)
        (spec : Spec) (id id' : string) :
  Statements (fst (Parse fs spec file))
    = Statements spec ++ Statements (fst (Parse fs (New id) file)) /\
  snd (Parse fs spec file) = snd (Parse fs (New id) file) /\
  Statements (fst (Parse fs (New id) file))
    = Statements (fst (Parse fs (New id') file)).
Proof.
  unfold Parse. destruct (fs file) as [text | err]; simpl.
  - pose proof (parseLines_appends (ScanLines text) EmptyString (Statements spec) [])
      as Happ.
    rewrite app_nil_r in Happ. rewrite Happ.
    destruct (parseLines (ScanLines text) (EmptyString, [])) as [p s].
    simpl. repeat split.
  - now rewrite app_nil_r.
Qed.

(** C10: every statement that [Parse] puts into a fresh [Spec] holds
    something other than white space ([TrimSpace] does not empty it), so it
    splits into a non-empty list of fields whose first field is not empty,
    and [words[0]] in [Build] is never out of range. *)
Theorem C10_statement_has_keyword (fs : FileSystem) (id file : string)
        (statement : string) :
  In statement (Statements (fst (Parse fs (New id) file))) ->
  TrimSpace statement <> EmptyString /\
  exists keyword args,
    Fields statement = keyword :: args /\
    keyword <> EmptyString /\
    index (Fields statement) 0 = ret keyword.
Proof.
  intros Hin.
  assert (Hall : Forall (fun s => Fields s <> [])
                        (Statements (fst (Parse fs (New id) file)))).
  { unfold Parse. destruct (fs file) as [text | err]; simpl; [| constructor].
    pose proof (parseLines_fields (ScanLines text) (EmptyString, [])) as H.
    destruct (parseLines (ScanLines text) (EmptyString, [])) as [p s].
    apply H. constructor. }
  rewrite List.Forall_forall in Hall. specialize (Hall statement Hin).
  split; [now apply Fields_TrimSpace |].
  pose proof (fieldsFrom_fields_nonempty statement 0 EmptyString) as Hne.
  fold (Fields statement) in Hne.
  destruct (Fields statement) as [| keyword args]; [congruence |].
  exists keyword, args. inversion Hne; subst. repeat split; assumption.
Qed.

Lemma C10_statement_has_keyword_witness :
  TrimSpace "RUN apt-get update &&      apt-get install -y make" <> EmptyString /\
  exists keyword args,
    Fields "RUN apt-get update &&      apt-get install -y make" = keyword :: args /\
    keyword <> EmptyString /\
    index (Fields "RUN apt-get update &&      apt-get install -y make") 0 = ret keyword.
Proof.
  apply (C10_statement_has_keyword sampleFiles "nut" "Dockerfile").
  vm_compute. right. left. reflexivity.
Defined.

(** * Properties of the interpreter *)

Section HandleBlind.

Lemma blind_ret {A} (a : A) : handleBlind (ret a).
Proof. intros c cfg. split; reflexivity. Qed.

Lemma blind_panic {A} (cause : PanicCause) : handleBlind (@panic A cause).
Proof. intros c cfg. split; reflexivity. Qed.

Lemma blind_logFatalf {A} : handleBlind (@logFatalf A).
Proof. intros c cfg. split; reflexivity. Qed.

Lemma blind_index {A} (l : list A) (i : nat) : handleBlind (index l i).
Proof.
  unfold index. destruct (nth_error l i); [apply blind_ret | apply blind_panic].
Qed.

Lemma blind_bind {A B} (m : M A) (k : A -> M B) :
  handleBlind m -> (forall a, handleBlind (k a)) -> handleBlind (bind m k).
Proof.
  intros Hm Hk c cfg. unfold bind.
  destruct (Hm c cfg) as [Hm1 Hm2]. rewrite Hm1.
  destruct (m cfg) as [[a | code | cause] cfg'] eqn:Hrun; simpl in *.
  - destruct (Hk a c cfg') as [Hk1 Hk2]. rewrite Hk1.
    destruct (k a cfg') as [out cfg'']. simpl in *. split; congruence.
  - split; [reflexivity | assumption].
  - split; [reflexivity | assumption].
Qed.

Lemma blind_modifyManifest (f : Manifest.t -> Manifest.t) :
  handleBlind (modifyManifest f).
Proof. intros c cfg. split; reflexivity. Qed.

End HandleBlind.

Section DirectiveFacts.

Variable rt : Runtime.
Variable id : string.
Variable volumes : list string.

Lemma blind_appendEnv (entry : string) : handleBlind (appendEnv entry).
Proof. intros c cfg. split; reflexivity. Qed.

Lemma blind_envLoop (args : list string) : handleBlind (envLoop args).
Proof.
  induction args as [args IH] using (induction_ltof1 _ (@List.length string)).
  unfold ltof in IH.
  destruct args as [| w rest]; [apply blind_ret |].
  cbn [envLoop]. destruct (Contains w "=").
  - apply blind_bind; [apply blind_appendEnv | intros _].
    apply IH. simpl. lia.
  - destruct rest as [| v rest']; [apply blind_panic |].
    apply blind_bind; [apply blind_appendEnv | intros _].
    apply IH. simpl. lia.
Qed.

Lemma blind_labelLoop (args : list string) : handleBlind (labelLoop args).
Proof.
  induction args as [| w rest IH]; [apply blind_ret |].
  cbn [labelLoop]. destruct (Contains w "="); [| apply blind_logFatalf].
  apply blind_bind; [apply blind_index | intros k].
  apply blind_bind; [apply blind_index | intros v].
  apply blind_bind; [apply blind_modifyManifest | intros _]. exact IH.
Qed.

Lemma blind_exposeLoop (args : list string) : handleBlind (exposeLoop args).
Proof.
  induction args as [| p rest IH]; [apply blind_ret |].
  cbn [exposeLoop]. destruct (ParseUint p) as [port err].
  apply blind_bind; [apply blind_modifyManifest | intros _]. exact IH.
Qed.

Lemma blind_setEntryPoint (words : list string) : handleBlind (setEntryPoint words).
Proof.
  intros c cfg. unfold setEntryPoint, bind, getState. simpl.
  destruct (List.length _ =? 0)%nat; split; reflexivity.
Qed.

Lemma execStatement_words (statement keyword : string) (args : list string) :
  Fields statement = keyword :: args ->
  execStatement rt id volumes statement
  = execDirective rt id volumes (directiveOf keyword) (keyword :: args).
Proof. intros Hf. unfold execStatement. rewrite Hf. reflexivity. Qed.

(** The statements of the metadata directives are blind to the handle. *)
Lemma blind_metadata (d : Directive) (words : list string) :
  ignoresContainer d = true ->
  handleBlind (execDirective rt id volumes d words).
Proof.
  intros Hd. destruct d; try discriminate; cbn [execDirective].
  - (* ENV *)
    apply blind_bind; [apply blind_envLoop | intros _; apply blind_ret].
  - (* WORKDIR *)
    apply blind_bind; [apply blind_index | intros dir].
    apply blind_bind; [| intros _; apply blind_ret].
    intros c cfg. split; reflexivity.
  - (* LABEL *) apply blind_labelLoop.
  - (* EXPOSE *)
    apply blind_bind; [apply blind_exposeLoop | intros _; apply blind_ret].
  - (* MAINTAINER *)
    apply blind_bind; [apply blind_modifyManifest | intros _; apply blind_ret].
  - (* USER *)
    apply blind_bind; [apply blind_index | intros user].
    apply blind_bind; [apply blind_modifyManifest | intros _; apply blind_ret].
  - apply blind_ret.
  - apply blind_ret.
  - apply blind_setEntryPoint.
  - apply blind_setEntryPoint.
  - apply blind_ret.
Qed.

End DirectiveFacts.

(** C1, as stated, fails: ENV reached without a container handle returns no
    error and appends its entry. *)
Lemma C1_counterexample :
  BuilderState.Container (state initialConfig) = None /\
  exists cfg,
    execStatement quietRuntime "nut" ["vol"] "ENV A=1" initialConfig = (Val None, cfg) /\
    BuilderState.Env (state cfg) = ["A=1"].
Proof. split; [reflexivity |]. eexists. split; vm_compute; reflexivity. Qed.

(** C1, amended: RUN reached while the container handle is absent returns
    the error and leaves state and trace as they were; the directives that
    record metadata (and unknown keywords) have no such check: they run the
    same whatever the handle is, and call no collaborator. *)
Theorem C1_only_run_checks_the_handle
        (rt : Runtime) (id : string) (volumes : list string)
        (run other keyword : string) (command args : list string) (cfg : Config) :
  BuilderState.Container (state cfg) = None ->
  Fields run = "RUN" :: command ->
  Fields other = keyword :: args ->
  ignoresContainer (directiveOf keyword) = true ->
  execStatement rt id volumes run cfg
  = (Val (Some (errors_New "No container has been created yet. Use FROM directive")),
     cfg) /\
  forall c,
    execStatement rt id volumes other (withContainer c cfg)
    = (fst (execStatement rt id volumes other cfg),
       withContainer c (snd (execStatement rt id volumes other cfg))) /\
    trace (snd (execStatement rt id volumes other cfg)) = trace cfg.
Proof.
  intros Hnil Hrun Hother Hd. split.
  - rewrite (execStatement_words rt id volumes _ _ _ Hrun).
    change (directiveOf "RUN") with RUN. cbn [execDirective].
    unfold bind, getState. simpl. now rewrite Hnil.
  - intros c. rewrite (execStatement_words rt id volumes _ _ _ Hother).
    now apply blind_metadata.
Qed.

Lemma C1_only_run_checks_the_handle_witness :
  execStatement quietRuntime "nut" ["vol"] "RUN make" initialConfig
  = (Val (Some (errors_New "No container has been created yet. Use FROM directive")),
     initialConfig) /\
  forall c,
    execStatement quietRuntime "nut" ["vol"] "LABEL a=b" (withContainer c initialConfig)
    = (fst (execStatement quietRuntime "nut" ["vol"] "LABEL a=b" initialConfig),
       withContainer c
         (snd (execStatement quietRuntime "nut" ["vol"] "LABEL a=b" initialConfig))) /\
    trace (snd (execStatement quietRuntime "nut" ["vol"] "LABEL a=b" initialConfig))
    = trace initialConfig.
Proof.
  apply (C1_only_run_checks_the_handle
           quietRuntime "nut" ["vol"] "RUN make" "LABEL a=b" "LABEL"
           ["make"] ["a=b"] initialConfig).
  - reflexivity.
  - vm_compute. reflexivity.
  - vm_compute. reflexivity.
  - reflexivity.
Defined.

(** ** What a computation leaves untouched *)

Section Keeps.

Context {X : Type} (part : BuilderState.t -> X).

Lemma keeps_ret {A} (a : A) : keeps part (ret a).
Proof. intros cfg. reflexivity. Qed.

Lemma keeps_panic {A} (cause : PanicCause) : keeps part (@panic A cause).
Proof. intros cfg. reflexivity. Qed.

Lemma keeps_logFatalf {A} : keeps part (@logFatalf A).
Proof. intros cfg. reflexivity. Qed.

Lemma keeps_getState : keeps part getState.
Proof. intros cfg. reflexivity. Qed.

Lemma keeps_getTrace : keeps part getTrace.
Proof. intros cfg. reflexivity. Qed.

Lemma keeps_emit (e : Event) : keeps part (emit e).
Proof. intros cfg. reflexivity. Qed.

Lemma keeps_index {A} (l : list A) (i : nat) : keeps part (index l i).
Proof.
  unfold index. destruct (nth_error l i); [apply keeps_ret | apply keeps_panic].
Qed.

Lemma keeps_modify (f : BuilderState.t -> BuilderState.t) :
  (forall st, part (f st) = part st) -> keeps part (modify f).
Proof. intros Hf cfg. apply Hf. Qed.

Lemma keeps_bind {A B} (m : M A) (k : A -> M B) :
  keeps part m -> (forall a, keeps part (k a)) -> keeps part (bind m k).
Proof.
  intros Hm Hk cfg. unfold bind. specialize (Hm cfg).
  destruct (m cfg) as [[a | code | cause] cfg']; simpl in *; try assumption.
  now rewrite Hk.
Qed.

Lemma keeps_orReturn (m k : M (option error)) :
  keeps part m -> keeps part k -> keeps part (orReturn m k).
Proof.
  intros Hm Hk. apply keeps_bind; [assumption |].
  intros [e |]; [apply keeps_ret | assumption].
Qed.

Lemma keeps_theContainer : keeps part theContainer.
Proof.
  apply keeps_bind; [apply keeps_getState | intros st].
  destruct (BuilderState.Container st); [apply keeps_ret | apply keeps_panic].
Qed.

End Keeps.

Create HintDb keeps.

#[local] Hint Resolve keeps_ret keeps_panic keeps_logFatalf keeps_getState
  keeps_getTrace keeps_emit keeps_index keeps_theContainer : keeps.

(** One step through a computation built from the monad's operations. *)
Ltac keeps_step :=
  lazymatch goal with
  | |- keeps _ (orReturn _ _) => apply keeps_orReturn
  | |- keeps _ (bind _ _) => apply keeps_bind; [| intros ?]
  | |- keeps _ (modify _) => apply keeps_modify; intros ?; reflexivity
  | |- keeps _ (modifyManifest _) => apply keeps_modify; intros ?; reflexivity
  | |- keeps _ (match ?x with Some _ => _ | None => _ end) => destruct x
  | |- keeps _ (if ?b then _ else _) => destruct b
  | |- keeps _ (let '(_, _) := ?x in _) => destruct x
  | |- keeps _ _ => solve [auto with keeps]
  end.

Section CollaboratorCalls.

Context {X : Type} (part : BuilderState.t -> X).
Variable rt : Runtime.

Lemma keeps_rootfsOf : keeps part (rootfsOf rt).
Proof. unfold rootfsOf. repeat keeps_step. Qed.

Lemma keeps_writeFile (filename data : string) (perm : N) :
  keeps part (writeFile rt filename data perm).
Proof. unfold writeFile. repeat keeps_step. Qed.

Lemma keeps_execRun (name : string) (args : list string) :
  keeps part (execRun rt name args).
Proof. unfold execRun. repeat keeps_step. Qed.

Lemma keeps_execCombinedOutput (name : string) (args : list string) :
  keeps part (execCombinedOutput rt name args).
Proof. unfold execCombinedOutput. repeat keeps_step. Qed.

(** [RunCommand] changes nothing in [spec.State]. *)
Lemma keeps_RunCommand (command : list string) : keeps part (RunCommand rt command).
Proof.
  unfold RunCommand.
  pose proof keeps_rootfsOf. pose proof keeps_writeFile.
  repeat keeps_step.
Qed.

Lemma keeps_addFiles (src dest : string) : keeps part (addFiles rt src dest).
Proof.
  unfold addFiles.
  pose proof keeps_rootfsOf. pose proof keeps_RunCommand.
  pose proof keeps_execRun. pose proof keeps_execCombinedOutput.
  repeat keeps_step.
Qed.

End CollaboratorCalls.

Section StatementFacts.

Variable rt : Runtime.
Variable id : string.
Variable volumes : list string.

Lemma keeps_envLoop (args : list string) :
  keeps handleAndEntryPoint (envLoop args).
Proof.
  induction args as [args IH] using (induction_ltof1 _ (@List.length string)).
  unfold ltof in IH.
  destruct args as [| w rest]; [apply keeps_ret |].
  cbn [envLoop]. destruct (Contains w "=").
  - apply keeps_bind; [unfold appendEnv; keeps_step | intros _].
    apply IH. simpl. lia.
  - destruct rest as [| v rest']; [apply keeps_panic |].
    apply keeps_bind; [unfold appendEnv; keeps_step | intros _].
    apply IH. simpl. lia.
Qed.

Lemma keeps_labelLoop (args : list string) :
  keeps handleAndEntryPoint (labelLoop args).
Proof.
  induction args as [| w rest IH]; [apply keeps_ret |].
  cbn [labelLoop]. destruct (Contains w "="); [| apply keeps_logFatalf].
  unfold setLabel. repeat keeps_step.
Qed.

Lemma keeps_exposeLoop (args : list string) :
  keeps handleAndEntryPoint (exposeLoop args).
Proof.
  induction args as [| p rest IH]; [apply keeps_ret |].
  cbn [exposeLoop]. unfold appendPort. repeat keeps_step.
Qed.

(** Only FROM, CMD and ENTRYPOINT touch the handle or the entry point. *)
Lemma keeps_directive (d : Directive) (words : list string) :
  d <> FROM -> d <> CMD -> d <> ENTRYPOINT ->
  keeps handleAndEntryPoint (execDirective rt id volumes d words).
Proof.
  intros Hfrom Hcmd Hentry.
  pose proof (keeps_RunCommand handleAndEntryPoint rt).
  pose proof (keeps_addFiles handleAndEntryPoint rt).
  pose proof keeps_envLoop. pose proof keeps_labelLoop.
  pose proof keeps_exposeLoop.
  destruct d; try congruence; cbn [execDirective]; repeat keeps_step.
Qed.

Lemma keeps_handle_setEntryPoint (words : list string) :
  keeps BuilderState.Container (setEntryPoint words).
Proof. unfold setEntryPoint. repeat keeps_step. Qed.

Lemma keeps_handle_directive (d : Directive) (words : list string) :
  d <> FROM -> keeps BuilderState.Container (execDirective rt id volumes d words).
Proof.
  intros Hfrom.
  destruct (Directive_eq_dec d CMD) as [-> | Hcmd];
    [apply keeps_handle_setEntryPoint |].
  destruct (Directive_eq_dec d ENTRYPOINT) as [-> | Hentry];
    [apply keeps_handle_setEntryPoint |].
  intros cfg.
  pose proof (keeps_directive d words Hfrom Hcmd Hentry cfg) as H.
  unfold handleAndEntryPoint in H. congruence.
Qed.

End StatementFacts.

Section ScriptFacts.

Variable rt : Runtime.
Variable id : string.
Variable volumes : list string.

Lemma runStatements_app (before after : list string) :
  forall cfg,
    runStatements rt id volumes (before ++ after) cfg
    = orReturn (runStatements rt id volumes before)
               (runStatements rt id volumes after) cfg.
Proof.
  induction before as [| s before IH]; intros cfg; [reflexivity |].
  change (orReturn (execStatement rt id volumes s)
                   (runStatements rt id volumes (before ++ after)) cfg
          = orReturn (orReturn (execStatement rt id volumes s)
                               (runStatements rt id volumes before))
                     (runStatements rt id volumes after) cfg).
  unfold orReturn, bind.
  destruct (execStatement rt id volumes s cfg) as [[[e |] | code | cause] c1];
    try reflexivity.
  rewrite IH. reflexivity.
Qed.

(** When the statements [before] let the loop go on, the script continues
    with the ones [after]. *)
Lemma runStatements_continue (before after : list string) (cfg c1 : Config) :
  runStatements rt id volumes before cfg = (Val None, c1) ->
  runStatements rt id volumes (before ++ after) cfg
  = runStatements rt id volumes after c1.
Proof.
  intros Hrun. rewrite runStatements_app. unfold orReturn, bind.
  now rewrite Hrun.
Qed.

Lemma runStatements_app_inv (before after : list string) (cfg c2 : Config) :
  runStatements rt id volumes (before ++ after) cfg = (Val None, c2) ->
  exists c1,
    runStatements rt id volumes before cfg = (Val None, c1) /\
    runStatements rt id volumes after c1 = (Val None, c2).
Proof.
  rewrite runStatements_app. unfold orReturn, bind.
  destruct (runStatements rt id volumes before cfg)
    as [[[e |] | code | cause] c1]; try discriminate.
  intros Hafter. now exists c1.
Qed.

Lemma runStatements_cons_inv (s : string) (rest : list string) (cfg c2 : Config) :
  runStatements rt id volumes (s :: rest) cfg = (Val None, c2) ->
  exists c1,
    execStatement rt id volumes s cfg = (Val None, c1) /\
    runStatements rt id volumes rest c1 = (Val None, c2).
Proof.
  cbn [runStatements]. unfold orReturn, bind.
  destruct (execStatement rt id volumes s cfg)
    as [[[e |] | code | cause] c1]; try discriminate.
  intros Hrest. now exists c1.
Qed.

(** A property that every statement hands on when the loop goes on holds
    after the whole run. *)
Lemma runStatements_invariant (I : Config -> Prop) (statements : list string) :
  (forall s, In s statements ->
     forall cfg cfg', I cfg ->
       execStatement rt id volumes s cfg = (Val None, cfg') -> I cfg') ->
  forall cfg cfg', I cfg ->
    runStatements rt id volumes statements cfg = (Val None, cfg') -> I cfg'.
Proof.
  induction statements as [| s rest IH]; intros Hstep cfg cfg' HI Hrun.
  - cbn in Hrun. now inversion Hrun; subst.
  - apply runStatements_cons_inv in Hrun as [c1 [Hs Hrest]].
    apply (IH (fun s' Hin => Hstep s' (or_intror Hin)) c1 cfg');
      [| assumption].
    exact (Hstep s (or_introl eq_refl) cfg c1 HI Hs).
Qed.

(** *** CMD and ENTRYPOINT *)

Lemma setEntryPoint_when_set (words : list string) (cfg : Config) :
  entryPointOf cfg <> [] ->
  setEntryPoint words cfg = (Val (Some entryPointError), cfg).
Proof.
  intros Hset. unfold setEntryPoint, bind, getState, entryPointOf in *. simpl.
  destruct (Manifest.EntryPoint (BuilderState.Manifest (state cfg)));
    [congruence | reflexivity].
Qed.

Lemma setEntryPoint_sets (words : list string) (cfg cfg' : Config) :
  tl words <> [] ->
  setEntryPoint words cfg = (Val None, cfg') ->
  entryPointOf cfg' <> [].
Proof.
  intros Hargs. unfold setEntryPoint, bind, getState, entryPointOf. simpl.
  destruct (List.length _ =? 0)%nat; [| discriminate].
  intros [= <-]. exact Hargs.
Qed.

Lemma execStatement_entry_when_set (s : string) (cfg : Config) :
  setsEntryPoint s = true -> entryPointOf cfg <> [] ->
  execStatement rt id volumes s cfg = (Val (Some entryPointError), cfg).
Proof.
  unfold setsEntryPoint, directiveOfStatement. intros Hs Hset.
  destruct (Fields s) as [| keyword args] eqn:Hf; [discriminate |].
  rewrite (execStatement_words rt id volumes _ _ _ Hf).
  destruct (directiveOf keyword); try discriminate; cbn [execDirective];
    now apply setEntryPoint_when_set.
Qed.

Lemma execStatement_entry_sets (s : string) (cfg cfg' : Config) :
  setsEntryPoint s = true -> hasArgument s = true ->
  execStatement rt id volumes s cfg = (Val None, cfg') ->
  entryPointOf cfg' <> [].
Proof.
  unfold setsEntryPoint, hasArgument, directiveOfStatement. intros Hs Harg.
  destruct (Fields s) as [| keyword args] eqn:Hf; [discriminate |].
  rewrite (execStatement_words rt id volumes _ _ _ Hf).
  destruct args as [| a args]; [discriminate |].
  destruct (directiveOf keyword); try discriminate; cbn [execDirective];
    apply setEntryPoint_sets; discriminate.
Qed.

Lemma execStatement_keeps_entry (s : string) (cfg cfg' : Config) :
  isFROM s = false -> entryPointOf cfg <> [] ->
  execStatement rt id volumes s cfg = (Val None, cfg') ->
  entryPointOf cfg' <> [].
Proof.
  unfold isFROM, directiveOfStatement. intros Hs Hset Hrun.
  destruct (Fields s) as [| keyword args] eqn:Hf.
  { unfold execStatement in Hrun. rewrite Hf in Hrun. discriminate. }
  rewrite (execStatement_words rt id volumes _ _ _ Hf) in Hrun.
  destruct (Directive_eq_dec (directiveOf keyword) FROM) as [Hd | Hfrom];
    [rewrite Hd in Hs; discriminate |].
  destruct (Directive_eq_dec (directiveOf keyword) CMD) as [Hd | Hcmd].
  { rewrite Hd in Hrun. cbn [execDirective] in Hrun.
    rewrite setEntryPoint_when_set in Hrun by assumption. discriminate. }
  destruct (Directive_eq_dec (directiveOf keyword) ENTRYPOINT) as [Hd | Hentry].
  { rewrite Hd in Hrun. cbn [execDirective] in Hrun.
    rewrite setEntryPoint_when_set in Hrun by assumption. discriminate. }
  pose proof (keeps_directive rt id volumes _ (keyword :: args)
                Hfrom Hcmd Hentry cfg) as Hkeep.
  rewrite Hrun in Hkeep. unfold handleAndEntryPoint in Hkeep. simpl in Hkeep.
  unfold entryPointOf in *. congruence.
Qed.

(** *** FROM *)

Lemma execStatement_from_with_handle (s : string) (cfg : Config) (c : Container) :
  isFROM s = true -> BuilderState.Container (state cfg) = Some c ->
  execStatement rt id volumes s cfg = (Val (Some multipleFromError), cfg).
Proof.
  unfold isFROM, directiveOfStatement. intros Hs Hc.
  destruct (Fields s) as [| keyword args] eqn:Hf; [discriminate |].
  rewrite (execStatement_words rt id volumes _ _ _ Hf).
  destruct (directiveOf keyword); try discriminate. cbn [execDirective].
  unfold bind, getState. simpl. now rewrite Hc.
Qed.

Lemma cloneLoop_gives_handle (name : string) (vols : list string) :
  cloneGivesHandle rt -> vols <> [] ->
  forall cfg cfg',
    cloneLoop rt id name vols cfg = (Val None, cfg') ->
    BuilderState.Container (state cfg') <> None.
Proof.
  intros Hrt. induction vols as [| volume vols IH]; intros Hne cfg cfg';
    [congruence |].
  cbn [cloneLoop]. unfold bind, getTrace, emit, setContainer, modify. simpl.
  destruct (CloneAndStartContainer rt (trace cfg) name id volume)
    as [c [e |]] eqn:Hclone; simpl; [discriminate |].
  apply Hrt in Hclone.
  destruct vols as [| volume' vols'].
  - cbn. intros [= <-]. exact Hclone.
  - apply IH. discriminate.
Qed.

Lemma execStatement_from_gives_handle (s : string) (cfg cfg' : Config) :
  cloneGivesHandle rt -> volumes <> [] -> isFROM s = true ->
  execStatement rt id volumes s cfg = (Val None, cfg') ->
  BuilderState.Container (state cfg') <> None.
Proof.
  unfold isFROM, directiveOfStatement. intros Hrt Hvols Hs.
  destruct (Fields s) as [| keyword args] eqn:Hf; [discriminate |].
  rewrite (execStatement_words rt id volumes _ _ _ Hf).
  destruct (directiveOf keyword); try discriminate. cbn [execDirective].
  unfold bind at 1, getState. simpl.
  destruct (BuilderState.Container (state cfg)); [discriminate |].
  unfold bind at 1. destruct (index (keyword :: args) 1 cfg)
    as [[base | code | cause] c0] eqn:Hbase; try discriminate.
  assert (c0 = cfg) as ->.
  { unfold index in Hbase. destruct (nth_error (keyword :: args) 1);
      inversion Hbase; reflexivity. }
  unfold orReturn, bind at 1.
  destruct (cloneLoop rt id (ParentName rt base) volumes cfg)
    as [[[e |] | code | cause] c1] eqn:Hclone; try discriminate.
  apply (cloneLoop_gives_handle _ _ Hrt Hvols) in Hclone.
  intros Hload.
  assert (Hkeep : keeps BuilderState.Container (loadManifest rt (ParentName rt base))).
  { unfold loadManifest. repeat keeps_step. }
  specialize (Hkeep c1). unfold bind in Hload.
  destruct (loadManifest rt (ParentName rt base) c1) as [[r | code | cause] c2];
    try discriminate.
  inversion Hload; subst. simpl in Hkeep. congruence.
Qed.

(** Once there is a handle, every statement that lets the loop go on
    leaves one. *)
Lemma execStatement_keeps_handle (s : string) (cfg cfg' : Config) :
  BuilderState.Container (state cfg) <> None ->
  execStatement rt id volumes s cfg = (Val None, cfg') ->
  BuilderState.Container (state cfg') <> None.
Proof.
  intros Hc Hrun.
  destruct (isFROM s) eqn:Hs.
  - destruct (BuilderState.Container (state cfg)) as [c |] eqn:Hcfg;
      [| congruence].
    rewrite (execStatement_from_with_handle s cfg c Hs Hcfg) in Hrun.
    discriminate.
  - unfold isFROM, directiveOfStatement in Hs.
    destruct (Fields s) as [| keyword args] eqn:Hf.
    { unfold execStatement in Hrun. rewrite Hf in Hrun. discriminate. }
    rewrite (execStatement_words rt id volumes _ _ _ Hf) in Hrun.
    assert (Hfrom : directiveOf keyword <> FROM).
    { intros Hd. rewrite Hd in Hs. discriminate. }
    pose proof (keeps_handle_directive rt id volumes _ (keyword :: args)
                  Hfrom cfg) as Hkeep.
    rewrite Hrun in Hkeep. simpl in Hkeep. congruence.
Qed.

End ScriptFacts.

Section BuildFacts.

Variable rt : Runtime.
Variable volumes : list string.

(** When the statement loop does not run to its end, [Build] stops there. *)
Lemma Build_stops_in_loop (spec : Spec) (out : Outcome (option error))
      (cfg : Config) :
  runStatements rt (ID spec) volumes (Statements spec) initialConfig = (out, cfg) ->
  out <> Val None ->
  Build rt spec volumes = (out, specAfter spec cfg, trace cfg).
Proof.
  intros Hrun Hout. unfold Build, buildBody, orReturn, bind. rewrite Hrun.
  destruct out as [[e |] | code | cause]; [| congruence | |]; reflexivity.
Qed.

Lemma Build_outcome_in_loop (spec : Spec) :
  fst (runStatements rt (ID spec) volumes (Statements spec) initialConfig)
    <> Val None ->
  fst (fst (Build rt spec volumes)) <> Val None.
Proof.
  intros Hout.
  destruct (runStatements rt (ID spec) volumes (Statements spec) initialConfig)
    as [out cfg] eqn:Hrun.
  now rewrite (Build_stops_in_loop spec out cfg Hrun Hout).
Qed.

(** A script that comes to a statement which returns an error stops there. *)
Lemma runStatements_stops_at (id : string) (before after : list string)
      (s : string) (cfg reached : Config) (e : error) :
  runStatements rt id volumes before cfg = (Val None, reached) ->
  execStatement rt id volumes s reached = (Val (Some e), reached) ->
  runStatements rt id volumes (before ++ s :: after) cfg = (Val (Some e), reached).
Proof.
  intros Hbefore Hs. rewrite (runStatements_continue _ _ _ _ _ _ _ Hbefore).
  cbn [runStatements]. unfold orReturn, bind. now rewrite Hs.
Qed.

End BuildFacts.

(** C4, as stated, fails: a CMD without arguments leaves the entry point
    empty, and the ENTRYPOINT that follows is accepted. *)
Lemma C4_counterexample :
  setsEntryPoint "CMD" = true /\
  setsEntryPoint "ENTRYPOINT /bin/sh" = true /\
  exists spec,
    Build quietRuntime (specOf ["FROM base"; "CMD"; "ENTRYPOINT /bin/sh"]) ["vol"]
    = (Val None, spec,
       [CloneAndStartContainerCall "base" "nut" "vol"; ManifestLoadCall "base";
        WriteFileCall "/var/lib/lxc/nut/rootfs/../manifest.yml" EmptyString 420]) /\
    Manifest.EntryPoint (BuilderState.Manifest (State spec)) = ["/bin/sh"].
Proof.
  split; [vm_compute; reflexivity |]. split; [vm_compute; reflexivity |].
  eexists. split; vm_compute; reflexivity.
Qed.

(** C4, amended: when the first of two CMD/ENTRYPOINT statements has an
    argument and no FROM stands between the two, [Build] does not return
    nil; if the script gets as far as the second, it is that statement which
    returns the error, whichever keywords the two carry, with state and
    trace left as they were. *)
Theorem C4_second_entry_point_fails
        (rt : Runtime) (volumes : list string) (spec : Spec)
        (before between after : list string) (first second : string) :
  Statements spec = before ++ first :: between ++ second :: after ->
  setsEntryPoint first = true ->
  hasArgument first = true ->
  setsEntryPoint second = true ->
  Forall (fun s => isFROM s = false) between ->
  fst (fst (Build rt spec volumes)) <> Val None /\
  forall reached,
    runStatements rt (ID spec) volumes (before ++ first :: between) initialConfig
    = (Val None, reached) ->
    Build rt spec volumes
    = (Val (Some entryPointError), specAfter spec reached, trace reached).
Proof.
  intros Hspec Hfirst Harg Hsecond Hbetween.
  assert (Hreach : forall reached,
    runStatements rt (ID spec) volumes (before ++ first :: between) initialConfig
    = (Val None, reached) ->
    runStatements rt (ID spec) volumes (Statements spec) initialConfig
    = (Val (Some entryPointError), reached)).
  { intros reached Hrun.
    assert (Hset : entryPointOf reached <> []).
    { apply runStatements_app_inv in Hrun as [c1 [_ Hrun]].
      apply runStatements_cons_inv in Hrun as [c2 [Hs1 Hrun]].
      apply (execStatement_entry_sets rt (ID spec) volumes) in Hs1; try assumption.
      revert Hs1 Hrun.
      apply (runStatements_invariant rt (ID spec) volumes
               (fun cfg => entryPointOf cfg <> []) between).
      intros s Hin cfg cfg' Hcfg Hexec.
      rewrite List.Forall_forall in Hbetween.
      exact (execStatement_keeps_entry rt (ID spec) volumes s cfg cfg'
               (Hbetween s Hin) Hcfg Hexec). }
    rewrite Hspec.
    replace (before ++ first :: between ++ second :: after)
      with ((before ++ first :: between) ++ second :: after)
      by (rewrite <- List.app_assoc; reflexivity).
    apply runStatements_stops_at; [assumption |].
    now apply execStatement_entry_when_set. }
  split.
  - apply Build_outcome_in_loop. intros Hout.
    destruct (runStatements rt (ID spec) volumes (Statements spec) initialConfig)
      as [out cfg] eqn:Hrun.
    simpl in Hout. subst out.
    pose proof Hrun as Hrun'. rewrite Hspec in Hrun'.
    replace (before ++ first :: between ++ second :: after)
      with ((before ++ first :: between) ++ second :: after) in Hrun'
      by (rewrite <- List.app_assoc; reflexivity).
    apply runStatements_app_inv in Hrun' as [reached [Hreached _]].
    specialize (Hreach reached Hreached). congruence.
  - intros reached Hrun. apply Build_stops_in_loop; [| discriminate].
    now apply Hreach.
Qed.

Lemma C4_second_entry_point_fails_witness :
  fst (fst (Build quietRuntime
              (specOf ["FROM base"; "CMD /bin/sh"; "ENV A=1"; "ENTRYPOINT /init"])
              ["vol"]))
    <> Val None /\
  forall reached,
    runStatements quietRuntime "nut" ["vol"]
                  (["FROM base"] ++ "CMD /bin/sh" :: ["ENV A=1"]) initialConfig
    = (Val None, reached) ->
    Build quietRuntime
          (specOf ["FROM base"; "CMD /bin/sh"; "ENV A=1"; "ENTRYPOINT /init"])
          ["vol"]
    = (Val (Some entryPointError),
       specAfter (specOf ["FROM base"; "CMD /bin/sh"; "ENV A=1"; "ENTRYPOINT /init"])
                 reached,
       trace reached).
Proof.
  apply (C4_second_entry_point_fails quietRuntime ["vol"]
           (specOf ["FROM base"; "CMD /bin/sh"; "ENV A=1"; "ENTRYPOINT /init"])
           ["FROM base"] ["ENV A=1"] [] "CMD /bin/sh" "ENTRYPOINT /init").
  - reflexivity.
  - vm_compute. reflexivity.
  - vm_compute. reflexivity.
  - vm_compute. reflexivity.
  - repeat constructor.
Defined.

(** C5, as stated, fails: the build stops at the second FROM, yet the RUN
    that stands before it has been executed by then. *)
Lemma C5_counterexample :
  isFROM "FROM base" = true /\
  exists spec tr,
    Build quietRuntime (specOf ["FROM base"; "RUN make"; "FROM base"]) ["vol"]
    = (Val (Some multipleFromError), spec, tr) /\
    In (RunCommandStatusCall (ContainerRef 1) ["/bin/bash"; "/tmp/dockerfile.sh"]
          (attachOptions quietRuntime)) tr.
Proof.
  split; [vm_compute; reflexivity |].
  eexists. eexists. split; [vm_compute; reflexivity |].
  do 3 right. left. reflexivity.
Qed.

(** C5, amended: with at least one volume and a runtime whose successful
    clone hands back a handle, a script with two FROM statements never makes
    [Build] return nil; if the script gets as far as the second FROM, that
    statement returns the error and leaves state and trace as the statements
    before it left them: nothing is cloned, loaded or run for it or after
    it, while whatever stands before it has been executed. *)
Theorem C5_second_from_fails
        (rt : Runtime) (volumes : list string) (spec : Spec)
        (before between after : list string) (first second : string) :
  cloneGivesHandle rt ->
  volumes <> [] ->
  Statements spec = before ++ first :: between ++ second :: after ->
  isFROM first = true ->
  isFROM second = true ->
  fst (fst (Build rt spec volumes)) <> Val None /\
  forall reached,
    runStatements rt (ID spec) volumes (before ++ first :: between) initialConfig
    = (Val None, reached) ->
    Build rt spec volumes
    = (Val (Some multipleFromError), specAfter spec reached, trace reached).
Proof.
  intros Hrt Hvols Hspec Hfirst Hsecond.
  assert (Hreach : forall reached,
    runStatements rt (ID spec) volumes (before ++ first :: between) initialConfig
    = (Val None, reached) ->
    runStatements rt (ID spec) volumes (before ++ first :: between ++ second :: after)
                  initialConfig
    = (Val (Some multipleFromError), reached)).
  { intros reached Hrun.
    assert (Hhandle : BuilderState.Container (state reached) <> None).
    { apply runStatements_app_inv in Hrun as [c1 [_ Hrun]].
      apply runStatements_cons_inv in Hrun as [c2 [Hs1 Hrun]].
      apply (execStatement_from_gives_handle rt (ID spec) volumes) in Hs1;
        try assumption.
      revert Hs1 Hrun.
      apply (runStatements_invariant rt (ID spec) volumes
               (fun cfg => BuilderState.Container (state cfg) <> None) between).
      intros s _ cfg cfg'. apply execStatement_keeps_handle. }
    replace (before ++ first :: between ++ second :: after)
      with ((before ++ first :: between) ++ second :: after)
      by (rewrite <- List.app_assoc; reflexivity).
    apply runStatements_stops_at; [assumption |].
    destruct (BuilderState.Container (state reached)) as [c |] eqn:Hc;
      [| congruence].
    now apply execStatement_from_with_handle with (c := c). }
  rewrite <- Hspec in Hreach. split.
  - apply Build_outcome_in_loop. intros Hout.
    destruct (runStatements rt (ID spec) volumes (Statements spec) initialConfig)
      as [out cfg] eqn:Hrun.
    simpl in Hout. subst out.
    pose proof Hrun as Hrun'. rewrite Hspec in Hrun'.
    replace (before ++ first :: between ++ second :: after)
      with ((before ++ first :: between) ++ second :: after) in Hrun'
      by (rewrite <- List.app_assoc; reflexivity).
    apply runStatements_app_inv in Hrun' as [reached [Hreached _]].
    specialize (Hreach reached Hreached). congruence.
  - intros reached Hrun. apply Build_stops_in_loop; [| discriminate].
    now apply Hreach.
Qed.

Lemma C5_second_from_fails_witness :
  fst (fst (Build quietRuntime
              (specOf ["FROM base"; "RUN make"; "FROM other"; "ENV A=1"])
              ["vol"]))
    <> Val None /\
  forall reached,
    runStatements quietRuntime "nut" ["vol"]
                  ([] ++ "FROM base" :: ["RUN make"]) initialConfig
    = (Val None, reached) ->
    Build quietRuntime
          (specOf ["FROM base"; "RUN make"; "FROM other"; "ENV A=1"])
          ["vol"]
    = (Val (Some multipleFromError),
       specAfter (specOf ["FROM base"; "RUN make"; "FROM other"; "ENV A=1"]) reached,
       trace reached).
Proof.
  apply (C5_second_from_fails quietRuntime ["vol"]
           (specOf ["FROM base"; "RUN make"; "FROM other"; "ENV A=1"])
           [] ["RUN make"] ["ENV A=1"] "FROM base" "FROM other").
  - intros tr name id volume c [= <-]. discriminate.
  - discriminate.
  - reflexivity.
  - vm_compute. reflexivity.
  - vm_compute. reflexivity.
Defined.

(** ** ENV *)

Section EnvFacts.

Lemma envLoop_entries (args : list string) :
  forall cfg,
    liveEnv (snd (envLoop args cfg)) = liveEnv cfg ++ envEntries args /\
    manifestEnv (snd (envLoop args cfg)) = manifestEnv cfg ++ envEntries args /\
    fst (envLoop args cfg)
    = (if envDangling args then Panicked IndexOutOfRange else Val tt).
Proof.
  induction args as [args IH] using (induction_ltof1 _ (@List.length string)).
  unfold ltof in IH. intros cfg.
  destruct args as [| w rest].
  { cbn. unfold liveEnv, manifestEnv. now rewrite !app_nil_r. }
  cbn [envLoop envEntries envDangling].
  destruct (Contains w "=").
  - unfold bind. cbn [appendEnv modify].
    match goal with |- context [envLoop rest ?c] =>
      destruct (IH rest (Nat.lt_succ_diag_r _) c) as [H1 [H2 H3]] end.
    rewrite H1, H2, H3. unfold liveEnv, manifestEnv. cbn.
    rewrite <- !List.app_assoc. repeat split.
  - destruct rest as [| v rest'].
    { cbn. unfold liveEnv, manifestEnv. now rewrite !app_nil_r. }
    unfold bind. cbn [appendEnv modify].
    match goal with |- context [envLoop rest' ?c] =>
      destruct (IH rest' ltac:(simpl; lia) c) as [H1 [H2 H3]] end.
    rewrite H1, H2, H3. unfold liveEnv, manifestEnv. cbn.
    rewrite <- !List.app_assoc. repeat split.
Qed.

End EnvFacts.

(** C6: an ENV statement appends the same entries, in the same order, to
    the live environment list of the build state and to the manifest's env
    list: each [KEY=VALUE] argument as it stands and each [KEY] [VALUE] pair
    as [KEY=VALUE]; the loop goes on unless the last key has no value. *)
Theorem C6_env_appends_to_both
        (rt : Runtime) (id : string) (volumes : list string)
        (statement : string) (args : list string) (cfg : Config) :
  Fields statement = "ENV" :: args ->
  liveEnv (snd (execStatement rt id volumes statement cfg))
    = liveEnv cfg ++ envEntries args /\
  manifestEnv (snd (execStatement rt id volumes statement cfg))
    = manifestEnv cfg ++ envEntries args /\
  fst (execStatement rt id volumes statement cfg)
    = (if envDangling args then Panicked IndexOutOfRange else Val None).
Proof.
  intros Hf. rewrite (execStatement_words rt id volumes _ _ _ Hf).
  change (directiveOf "ENV") with ENV. cbn [execDirective tl]. unfold bind.
  destruct (envLoop_entries args cfg) as [H1 [H2 H3]].
  destruct (envLoop args cfg) as [out cfg']. simpl in H1, H2, H3. subst out.
  destruct (envDangling args); simpl; repeat split; assumption.
Qed.

Lemma C6_env_appends_to_both_witness :
  liveEnv (snd (execStatement quietRuntime "nut" ["vol"] "ENV A=1 B 2" initialConfig))
    = ["A=1"; "B=2"] /\
  manifestEnv (snd (execStatement quietRuntime "nut" ["vol"] "ENV A=1 B 2" initialConfig))
    = ["A=1"; "B=2"] /\
  fst (execStatement quietRuntime "nut" ["vol"] "ENV A=1 B 2" initialConfig)
    = Val None.
Proof.
  apply (C6_env_appends_to_both quietRuntime "nut" ["vol"]
           "ENV A=1 B 2" ["A=1"; "B"; "2"] initialConfig).
  vm_compute. reflexivity.
Defined.

(** ** LABEL and EXPOSE *)

(** An argument without ['='] ends the process through [log.Fatalf]; the
    labels set before it stay set. *)
Lemma labelLoop_without_equals (w : string) (rest : list string) (cfg : Config) :
  Contains w "=" = false -> labelLoop (w :: rest) cfg = (Exited 1, cfg).
Proof. intros Hw. cbn [labelLoop]. now rewrite Hw. Qed.

(** An argument with ['='] sets the label named by the text before the
    first ['='] to the second piece of [strings.Split]. *)
Lemma labelLoop_with_equals (w k v : string) (pieces rest : list string)
      (cfg : Config) :
  Contains w "=" = true -> Split w "=" = k :: v :: pieces ->
  exists cfg',
    labelLoop (w :: rest) cfg = labelLoop rest cfg' /\
    labelsOf cfg' = <[k := v]> (labelsOf cfg).
Proof.
  intros Hw Hsplit. cbn [labelLoop]. rewrite Hw, Hsplit.
  eexists. split; reflexivity.
Qed.

Lemma Contains_cons (c : ascii) (s sub : string) :
  Contains (String c s) sub = HasPrefix (String c s) sub || Contains s sub.
Proof. reflexivity. Qed.

Lemma splitFrom_none (s : string) :
  forall cur,
    Contains s "=" = false ->
    splitFrom "=" 0 cur s = [cur +:+ s].
Proof.
  induction s as [| c s IH]; intros cur Hs.
  - cbn. now rewrite append_empty_r.
  - rewrite Contains_cons in Hs. apply orb_false_elim in Hs as [Hc Hs].
    cbn [splitFrom]. rewrite Hc, (IH _ Hs), append_assoc. reflexivity.
Qed.

Lemma splitFrom_once (k v : string) :
  forall cur,
    Contains k "=" = false -> Contains v "=" = false ->
    splitFrom "=" 0 cur (k +:+ "=" +:+ v) = [cur +:+ k; v].
Proof.
  induction k as [| c k IH]; intros cur Hk Hv.
  - change (EmptyString +:+ "=" +:+ v) with (String "=" v).
    cbn [splitFrom HasPrefix String.length Nat.sub]. rewrite Ascii.eqb_refl.
    cbn [andb]. rewrite (splitFrom_none v EmptyString Hv), append_empty_r.
    reflexivity.
  - rewrite Contains_cons in Hk. apply orb_false_elim in Hk as [Hc Hk].
    change (String c k +:+ "=" +:+ v) with (String c (k +:+ "=" +:+ v)).
    cbn [splitFrom]. cbn [HasPrefix] in Hc |- *.
    rewrite andb_true_r in Hc |- *. rewrite Hc.
    rewrite (IH _ Hk Hv), append_assoc. reflexivity.
Qed.

(** With a single ['='] in the argument the two readings agree: the label
    named by the text before it gets the text after it. *)
Lemma Split_once (k v : string) :
  Contains k "=" = false -> Contains v "=" = false ->
  Split (k +:+ "=" +:+ v) "=" = [k; v].
Proof. intros Hk Hv. unfold Split. now rewrite splitFrom_once. Qed.

(** C2: for the argument [a=b=c] the code stores the label [a] with the
    value [b], the piece between the first and the second ['='], where the
    claim wants the whole remainder [b=c]. *)
Theorem C2_label_value_is_second_piece
        (rt : Runtime) (id : string) (volumes : list string) (cfg : Config) :
  Split "a=b=c" "=" = ["a"; "b"; "c"] /\
  fst (execStatement rt id volumes "LABEL a=b=c" cfg) = Val None /\
  labelsOf (snd (execStatement rt id volumes "LABEL a=b=c" cfg)) !! "a" = Some "b" /\
  labelsOf (snd (execStatement rt id volumes "LABEL a=b=c" cfg)) !! "a" <> Some "b=c".
Proof.
  assert (Hf : Fields "LABEL a=b=c" = "LABEL" :: ["a=b=c"])
    by (vm_compute; reflexivity).
  assert (Hsplit : Split "a=b=c" "=" = "a" :: "b" :: ["c"])
    by (vm_compute; reflexivity).
  rewrite (execStatement_words rt id volumes _ _ _ Hf).
  change (directiveOf "LABEL") with LABEL. cbn [execDirective tl].
  destruct (labelLoop_with_equals "a=b=c" "a" "b" ["c"] [] cfg
              ltac:(vm_compute; reflexivity) Hsplit) as [cfg' [Hrun Hlabels]].
  rewrite Hrun. cbn [labelLoop ret fst snd]. rewrite Hlabels.
  rewrite lookup_insert_eq.
  split; [exact Hsplit |]. split; [reflexivity |].
  split; [reflexivity | discriminate].
Qed.

Lemma exposeLoop_ports (args : list string) :
  forall cfg,
    fst (exposeLoop args cfg) = Val tt /\
    exposedPortsOf (snd (exposeLoop args cfg))
    = exposedPortsOf cfg ++ map (fun p => fst (ParseUint p)) args.
Proof.
  induction args as [| p rest IH]; intros cfg.
  - cbn. unfold exposedPortsOf. now rewrite app_nil_r.
  - cbn [exposeLoop map]. destruct (ParseUint p) as [port err]. unfold bind.
    cbn [appendPort modifyManifest modify].
    match goal with |- context [exposeLoop rest ?c] =>
      destruct (IH c) as [H1 H2] end.
    rewrite H1, H2. unfold exposedPortsOf. cbn.
    now rewrite <- List.app_assoc.
Qed.

(** C3: the build goes on after [EXPOSE 80 not-a-number 443], but the
    argument that does not parse contributes the port 0: the list grows by
    [80; 0; 443], not by [80; 443]. *)
Theorem C3_unparsed_port_is_appended
        (rt : Runtime) (id : string) (volumes : list string) (cfg : Config) :
  ParseUint "not-a-number" = (0, Some ErrSyntax) /\
  fst (execStatement rt id volumes "EXPOSE 80 not-a-number 443" cfg) = Val None /\
  exposedPortsOf (snd (execStatement rt id volumes "EXPOSE 80 not-a-number 443" cfg))
    = exposedPortsOf cfg ++ [80; 0; 443].
Proof.
  assert (Hf : Fields "EXPOSE 80 not-a-number 443"
               = "EXPOSE" :: ["80"; "not-a-number"; "443"])
    by (vm_compute; reflexivity).
  rewrite (execStatement_words rt id volumes _ _ _ Hf).
  change (directiveOf "EXPOSE") with EXPOSE. cbn [execDirective tl]. unfold bind.
  destruct (exposeLoop_ports ["80"; "not-a-number"; "443"] cfg) as [H1 H2].
  destruct (exposeLoop ["80"; "not-a-number"; "443"] cfg) as [out cfg'].
  simpl in H1, H2. subst out. simpl. rewrite H2.
  split; [vm_compute; reflexivity |]. split; [reflexivity |].
  f_equal.
Qed.

(** ** The command execution harness *)

Section HarnessFacts.

Lemma concatAll_app (a b : list string) :
  concatAll (a ++ b) = concatAll a +:+ concatAll b.
Proof.
  induction a as [| x a IH]; [reflexivity |].
  cbn [app concatAll fold_right]. fold (concatAll (a ++ b)). fold (concatAll a).
  now rewrite IH, append_assoc.
Qed.

Lemma exports_fold (f : string -> string) (entries : list string) :
  forall buffer,
    fold_left (fun buffer v => WriteString buffer (f v)) entries buffer
    = buffer +:+ concatAll (map f entries).
Proof.
  induction entries as [| v entries IH]; intros buffer.
  - cbn. now rewrite append_empty_r.
  - cbn [fold_left map]. rewrite IH. unfold WriteString.
    cbn [concatAll fold_right]. now rewrite append_assoc.
Qed.

(** The buffer [RunCommand] fills holds the lines of [scriptLines]. *)
Lemma scriptFor_lines (st : BuilderState.t) (command : list string) :
  scriptFor st command = concatAll (scriptLines st command).
Proof.
  unfold scriptFor, scriptLines. rewrite exports_fold.
  rewrite !concatAll_app. unfold WriteString.
  destruct (String.eqb (BuilderState.Cwd st) EmptyString);
    destruct (String.eqb (Manifest.User (BuilderState.Manifest st)) EmptyString);
    cbn [negb concatAll fold_right];
    rewrite ?append_empty_r, ?append_assoc; reflexivity.
Qed.

End HarnessFacts.

(** C8, as stated, fails: when the script file cannot be written the
    harness returns an error although the driver, never asked, reports no
    execution error and no exit code other than 0. *)
Lemma C8_counterexample :
  (forall tr c args options,
     RunCommandStatus readOnlyRuntime tr c args options = (0%Z, None)) /\
  exists e cfg,
    RunCommand readOnlyRuntime ["make"]
               (withContainer (Some (ContainerRef 1)) initialConfig)
    = (Val (Some e), cfg) /\
    existsb isRunCommandStatusCall (trace cfg) = false.
Proof.
  split; [reflexivity |]. eexists. eexists. split; vm_compute; reflexivity.
Qed.

(** C8, amended: with a container whose root file system is known, the
    harness writes one script, made of the lines of [scriptLines] in that
    order, and asks the driver to run it only if the write succeeded; it
    returns an error if and only if the write fails, or the driver reports
    an execution error, or the exit code is not 0.  The build state is left
    as it was. *)
Theorem C8_script_and_result
        (rt : Runtime) (command : list string) (cfg : Config)
        (c : Container) (rootfs : string) (more : list string) :
  BuilderState.Container (state cfg) = Some c ->
  ConfigItem rt (trace cfg) c "lxc.rootfs" = rootfs :: more ->
  let path := filepathJoin rt [rootfs; "/tmp/dockerfile.sh"] in
  let script := concatAll (scriptLines (state cfg) command) in
  let written := WriteFileCall path script 493 in
  let args := ["/bin/bash"; "/tmp/dockerfile.sh"] in
  let asked := RunCommandStatusCall c args (attachOptions rt) in
  let writeErr := WriteFile rt (trace cfg) path script 493 in
  let status := RunCommandStatus rt (trace cfg ++ [written]) c args (attachOptions rt) in
  exists result,
    RunCommand rt command cfg
    = (Val result,
       {| state := state cfg;
          trace := trace cfg ++ written ::
                     match writeErr with Some _ => [] | None => [asked] end |}) /\
    (result <> None <->
     writeErr <> None \/
     (writeErr = None /\ (snd status <> None \/ fst status <> 0%Z))).
Proof.
  intros Hc Hroot path script written args asked writeErr status.
  unfold RunCommand, rootfsOf, theContainer, orReturn, writeFile, bind,
    getState, getTrace, emit, index.
  simpl. rewrite Hc. simpl. rewrite Hroot. simpl.
  rewrite scriptFor_lines.
  fold path. fold script. fold writeErr. fold written.
  destruct writeErr as [e |] eqn:Hwrite.
  - eexists. split; [reflexivity |].
    split; [intros _; left; discriminate | intros _; discriminate].
  - simpl. rewrite Hc. simpl. fold args. fold status.
    destruct status as [exitCode [e |]] eqn:Hstatus; simpl.
    + eexists. rewrite <- List.app_assoc. split; [reflexivity |].
      split; [intros _ | intros _; discriminate].
      right. split; [reflexivity | left; discriminate].
    + destruct (Z.eqb_spec exitCode 0) as [-> | Hcode]; simpl.
      * eexists. rewrite <- List.app_assoc. split; [reflexivity |].
        split; [congruence |].
        intros [H | [_ [H | H]]]; congruence.
      * eexists. rewrite <- List.app_assoc. split; [reflexivity |].
        split; [intros _ | intros _; discriminate].
        right. split; [reflexivity | right; assumption].
Qed.

Lemma C8_script_and_result_witness :
  exists result,
    RunCommand quietRuntime ["make"; "all"] sampleConfig
    = (Val result,
       {| state := state sampleConfig;
          trace :=
            [WriteFileCall "/var/lib/lxc/nut/rootfs//tmp/dockerfile.sh"
               "#!/bin/bash
export A=1
cd /srv
su - app
make all" 493;
             RunCommandStatusCall (ContainerRef 1)
               ["/bin/bash"; "/tmp/dockerfile.sh"] (attachOptions quietRuntime)] |}) /\
    (result <> None <->
     @None error <> None \/
     (@None error = None /\ (@None error <> None \/ 0%Z <> 0%Z))).
Proof.
  apply (C8_script_and_result quietRuntime ["make"; "all"] sampleConfig
           (ContainerRef 1) "/var/lib/lxc/nut/rootfs" []); reflexivity.
Defined.

(** * Further properties of the parser *)

Section ParserCoverage.

(** What one line adds to [spec.Statements]. *)
Lemma parseLine_statements (previous : string) (statements : list string)
      (line : string) :
  snd (parseLine (previous, statements) line)
  = statements ++ (if terminates line then [completed previous line] else []).
Proof.
  unfold parseLine, terminates, completed.
  destruct (isComment line); [now rewrite app_nil_r |].
  destruct (isExtendedStatement line).
  { destruct (negb _); simpl; now rewrite app_nil_r. }
  destruct (String.eqb (TrimSpace line) EmptyString); [now rewrite app_nil_r |].
  destruct (negb _); reflexivity.
Qed.

Lemma parseLine_ignored (st : ParseState) (line : string) :
  ignored line = true -> parseLine st line = st.
Proof.
  destruct st as [previous statements]. unfold ignored, parseLine.
  destruct (isComment line); [reflexivity |].
  destruct (isExtendedStatement line); [discriminate |].
  simpl. now intros ->.
Qed.

End ParserCoverage.

(** X1: the loop of [Parse] appends exactly one statement for each line that
    is neither a comment, nor a continuation, nor blank, whatever the
    accumulator and the statements held before. *)
Theorem parse_one_statement_per_terminating_line
        (lines : list string) (previous : string) (statements : list string) :
  List.length (snd (parseLines lines (previous, statements)))
  = (List.length statements + List.length (List.filter terminates lines))%nat.
Proof.
  revert previous statements.
  induction lines as [| line lines IH]; intros previous statements.
  - cbn. lia.
  - rewrite parseLines_cons.
    pose proof (parseLine_statements previous statements line) as Hstep.
    destruct (parseLine (previous, statements) line) as [p s]. simpl in Hstep.
    rewrite IH, Hstep. cbn [List.filter].
    destruct (terminates line); rewrite List.length_app; simpl; lia.
Qed.

(** X2: a continuation that is still pending when the input ends is lost:
    lines after the last terminating line, continuations included, add
    nothing to [spec.Statements]. *)
Theorem parse_drops_pending_continuation
        (lines rest : list string) (st : ParseState) :
  Forall (fun l => terminates l = false) rest ->
  snd (parseLines (lines ++ rest) st) = snd (parseLines lines st).
Proof.
  intros Hrest. unfold parseLines. rewrite fold_left_app.
  fold (parseLines lines st). generalize (parseLines lines st) as reached.
  induction rest as [| line rest IH]; intros [previous statements]; [reflexivity |].
  inversion Hrest as [| ? ? Hline Hrest']; subst. cbn [fold_left].
  pose proof (parseLine_statements previous statements line) as Hstep.
  rewrite Hline, app_nil_r in Hstep.
  destruct (parseLine (previous, statements) line) as [p s]. simpl in Hstep.
  subst s. now rewrite IH.
Qed.

Lemma parse_drops_pending_continuation_witness :
  snd (parseLines (["FROM base"; "RUN make"] ++ ["CMD /bin/sh \"; "  -c run \"])
                  (EmptyString, []))
  = snd (parseLines ["FROM base"; "RUN make"] (EmptyString, [])).
Proof.
  apply (parse_drops_pending_continuation
           ["FROM base"; "RUN make"] ["CMD /bin/sh \"; "  -c run \"]
           (EmptyString, [])).
  repeat constructor.
Defined.

(** X3: comment lines and blank lines can be taken out of the input, wherever
    they stand, without changing the accumulator or the statements. *)
Theorem parse_ignores_comments_and_blank_lines
        (lines : list string) (st : ParseState) :
  parseLines (List.filter (fun l => negb (ignored l)) lines) st = parseLines lines st.
Proof.
  revert st. induction lines as [| line lines IH]; intros st; [reflexivity |].
  cbn [List.filter]. destruct (ignored line) eqn:Hline; cbn [negb].
  - rewrite parseLines_cons, (parseLine_ignored st line Hline). apply IH.
  - rewrite !parseLines_cons. apply IH.
Qed.

Section StatementShape.

Lemma isExtendedStatement_append (a line : string) :
  line <> EmptyString ->
  isExtendedStatement (a +:+ line) = isExtendedStatement line.
Proof.
  intros Hline. unfold isExtendedStatement. rewrite strRev_append.
  destruct (strRev line) as [| c r] eqn:Hrev.
  - apply strRev_empty in Hrev. contradiction.
  - change (String c r +:+ strRev a) with (String c (r +:+ strRev a)).
    cbn [HasPrefix]. reflexivity.
Qed.

Lemma isComment_append (previous rest : string) :
  previous <> EmptyString ->
  isComment (previous +:+ rest) = isComment previous.
Proof. destruct previous; [congruence | reflexivity]. Qed.

Lemma TrimRight_head (a : ascii) (s : string) (c : ascii) :
  TrimRight (String a s) c = EmptyString \/
  exists t, TrimRight (String a s) c = String a t.
Proof.
  cbn [TrimRight]. destruct (TrimRight s c) as [| b t].
  - destruct (Ascii.eqb a c); [now left | right; now eexists].
  - right. now eexists.
Qed.

Lemma isComment_TrimRight (line : string) (c : ascii) :
  isComment line = false -> isComment (TrimRight line c) = false.
Proof.
  destruct line as [| a s]; [reflexivity |]. intros Hline.
  destruct (TrimRight_head a s c) as [-> | [t ->]]; [reflexivity | exact Hline].
Qed.

Lemma TrimSpace_nonempty (line : string) :
  TrimSpace line <> EmptyString -> line <> EmptyString.
Proof. intros H ->. now apply H. Qed.

Lemma parseLine_wellShaped (st : ParseState) (line : string) :
  wellShaped st -> wellShaped (parseLine st line).
Proof.
  destruct st as [previous statements]. unfold wellShaped, parseLine. simpl.
  intros [Hacc Hall].
  destruct (isComment line) eqn:Hcomment; [now split |].
  destruct (isExtendedStatement line) eqn:Hext.
  { destruct (String.eqb previous EmptyString) eqn:Hprev; simpl.
    - split; [now apply isComment_TrimRight | assumption].
    - apply eqb_empty_false in Hprev.
      split; [now rewrite isComment_append | assumption]. }
  destruct (String.eqb (TrimSpace line) EmptyString) eqn:Hblank; [now split |].
  apply eqb_empty_false, TrimSpace_nonempty in Hblank.
  destruct (String.eqb previous EmptyString) eqn:Hprev; simpl.
  - split; [assumption |]. apply Forall_app. split; [assumption |].
    repeat constructor; assumption.
  - apply eqb_empty_false in Hprev.
    split; [reflexivity |]. apply Forall_app. split; [assumption |].
    repeat constructor.
    + rewrite isExtendedStatement_append by discriminate.
      now rewrite (isExtendedStatement_append " " line Hblank).
    + now rewrite isComment_append.
Qed.

Lemma parseLines_wellShaped (lines : list string) :
  forall st, wellShaped st -> wellShaped (parseLines lines st).
Proof.
  induction lines as [| line lines IH]; intros st Hst; [exact Hst |].
  rewrite parseLines_cons. now apply IH, parseLine_wellShaped.
Qed.

End StatementShape.

(** X4: no statement that [Parse] puts into a fresh [Spec] ends with a
    backslash, and none begins with ['#']: continuation markers and comments
    never reach the interpreter as the end or the start of a statement. *)
Theorem parsed_statement_is_no_comment_or_continuation
        (fs : FileSystem) (id file : string) (statement : string) :
  In statement (Statements (fst (Parse fs (New id) file))) ->
  isExtendedStatement statement = false /\ isComment statement = false.
Proof.
  intros Hin.
  assert (Hall : Forall (fun s => isExtendedStatement s = false /\ isComment s = false)
                        (Statements (fst (Parse fs (New id) file)))).
  { unfold Parse. destruct (fs file) as [text | err]; simpl; [| constructor].
    pose proof (parseLines_wellShaped (ScanLines text) (EmptyString, [])) as H.
    destruct (parseLines (ScanLines text) (EmptyString, [])) as [p s].
    apply H. split; [reflexivity | constructor]. }
  rewrite List.Forall_forall in Hall. exact (Hall statement Hin).
Qed.

Lemma parsed_statement_is_no_comment_or_continuation_witness :
  isExtendedStatement "RUN apt-get update &&      apt-get install -y make" = false /\
  isComment "RUN apt-get update &&      apt-get install -y make" = false.
Proof.
  apply (parsed_statement_is_no_comment_or_continuation
           sampleFiles "nut" "Dockerfile").
  vm_compute. right. left. reflexivity.
Defined.

(** X5: the parser and the interpreter agree on what is blank: a line is
    emptied by [strings.TrimSpace] (the test of [Parse]) exactly when
    [strings.Fields] (the tokenizer of [Build]) finds no field in it. *)
Theorem blank_line_has_no_fields (line : string) :
  TrimSpace line = EmptyString <-> Fields line = [].
Proof.
  split; intros H.
  - destruct (Fields line) as [| w ws] eqn:Hf; [reflexivity |].
    exfalso. apply (Fields_TrimSpace line); [rewrite Hf; discriminate | exact H].
  - destruct (TrimSpace line) as [| c t] eqn:Ht; [reflexivity |].
    exfalso. apply (TrimSpace_Fields line); [rewrite Ht; discriminate | exact H].
Qed.

Section LineEndings.

Lemma concatAll_cons (x : string) (rest : list string) :
  concatAll (x :: rest) = x +:+ concatAll rest.
Proof. reflexivity. Qed.

Lemma rawLines_line (l : string) :
  forall cur rest,
    hasByte "010" l = false ->
    rawLines cur (l +:+ lineFeed +:+ rest) = (cur +:+ l) :: rawLines EmptyString rest.
Proof.
  induction l as [| a l IH]; intros cur rest Hl.
  - cbn. now rewrite append_empty_r.
  - cbn [hasByte] in Hl. apply orb_false_elim in Hl as [Ha Hl].
    change (String a l +:+ lineFeed +:+ rest)
      with (String a (l +:+ lineFeed +:+ rest)).
    cbn [rawLines]. rewrite Ha, (IH _ _ Hl), append_assoc. reflexivity.
Qed.

Lemma hasByte_append (c : ascii) (s t : string) :
  hasByte c (s +:+ t) = hasByte c s || hasByte c t.
Proof.
  induction s as [| a s IH]; [reflexivity |].
  change (String a s +:+ t) with (String a (s +:+ t)).
  cbn [hasByte]. now rewrite IH, orb_assoc.
Qed.

(** The raw lines of a text whose lines are closed by [pre] and a line feed. *)
Lemma rawLines_unlines (pre : string) (lines : list string) :
  hasByte "010" pre = false ->
  Forall (fun l => hasByte "010" l = false) lines ->
  rawLines EmptyString (unlines (pre +:+ lineFeed) lines)
  = map (fun l => l +:+ pre) lines.
Proof.
  intros Hpre Hall. induction Hall as [| l lines Hl _ IH]; [reflexivity |].
  unfold unlines in *. cbn [map]. rewrite concatAll_cons.
  rewrite <- !append_assoc, (append_assoc (l +:+ pre)), rawLines_line.
  - now rewrite IH.
  - now rewrite hasByte_append, Hl, Hpre.
Qed.

Lemma strRev_head (c : ascii) (l : string) :
  hasByte c l = false -> HasPrefix (strRev l) (String c EmptyString) = false.
Proof.
  intros Hl. destruct (strRev l) as [| a r] eqn:Hrev; [reflexivity |].
  cbn [HasPrefix]. rewrite andb_true_r.
  assert (Hin : hasByte c (strRev (String a r)) = false).
  { now rewrite <- Hrev, strRev_involutive. }
  cbn [strRev] in Hin. rewrite hasByte_append in Hin.
  apply orb_false_elim in Hin as [_ Hin]. cbn in Hin.
  now rewrite orb_false_r in Hin.
Qed.

Lemma dropCR_plain (l : string) : hasByte "013" l = false -> dropCR l = l.
Proof.
  intros Hl. unfold dropCR. pose proof (strRev_head _ _ Hl) as Hhead.
  destruct (strRev l) as [| a r]; [reflexivity |].
  cbn [HasPrefix] in Hhead. rewrite andb_true_r in Hhead.
  destruct a as [[] [] [] [] [] [] [] []]; try reflexivity. discriminate.
Qed.

Lemma dropCR_carriageReturn (l : string) :
  dropCR (l +:+ String "013" EmptyString) = l.
Proof.
  unfold dropCR. rewrite strRev_append. cbn. apply strRev_involutive.
Qed.

Lemma scanTokens_plain (lines : list string) :
  Forall (fun l => plainLine l = true) lines ->
  scanTokens lines = lines /\
  scanTokens (map (fun l => l +:+ String "013" EmptyString) lines) = lines.
Proof.
  intros Hall. induction Hall as [| l lines Hl _ [IH1 IH2]]; [now split |].
  unfold plainLine in Hl.
  apply andb_prop in Hl as [Hl Hlen]. apply andb_prop in Hl as [_ Hcr].
  apply negb_true_iff in Hcr. apply N.ltb_lt in Hlen.
  cbn [scanTokens map]. rewrite length_append. cbn [String.length].
  destruct (N.leb_spec MaxScanTokenSize (N.of_nat (String.length l))); [lia |].
  destruct (N.leb_spec MaxScanTokenSize (N.of_nat (String.length l + 1))); [lia |].
  rewrite IH1, IH2, dropCR_plain, dropCR_carriageReturn by assumption.
  now split.
Qed.

Lemma ScanLines_unlines (lines : list string) :
  Forall (fun l => plainLine l = true) lines ->
  ScanLines (unlines lineFeed lines) = lines /\
  ScanLines (unlines carriageReturnLineFeed lines) = lines.
Proof.
  intros Hall.
  assert (Hlf : Forall (fun l => hasByte "010" l = false) lines).
  { eapply List.Forall_impl; [| exact Hall]. intros l Hl. unfold plainLine in Hl.
    apply andb_prop in Hl as [Hl _]. apply andb_prop in Hl as [Hl _].
    now apply negb_true_iff in Hl. }
  destruct (scanTokens_plain lines Hall) as [H1 H2]. unfold ScanLines. split.
  - change lineFeed with (EmptyString +:+ lineFeed).
    rewrite rawLines_unlines by (reflexivity || assumption).
    replace (map (fun l => l +:+ EmptyString) lines) with lines; [exact H1 |].
    clear. induction lines as [| l lines IH]; [reflexivity |].
    cbn [map]. now rewrite append_empty_r, <- IH.
  - change carriageReturnLineFeed
      with (String "013" EmptyString +:+ lineFeed).
    rewrite rawLines_unlines by (reflexivity || assumption). exact H2.
Qed.

End LineEndings.

(** X6: [Parse] reads a script with CRLF line ends exactly as the same
    script with LF line ends: in both cases the loop sees the lines
    themselves, so a backslash before the line end is a continuation in
    either form. *)
Theorem parse_crlf_as_lf
        (fs : FileSystem) (spec : Spec) (unix dos : string) (lines : list string) :
  Forall (fun l => plainLine l = true) lines ->
  fs unix = inl (unlines lineFeed lines) ->
  fs dos = inl (unlines carriageReturnLineFeed lines) ->
  Parse fs spec dos = Parse fs spec unix /\
  Statements (fst (Parse fs spec unix))
  = snd (parseLines lines (EmptyString, Statements spec)).
Proof.
  intros Hall Hunix Hdos. destruct (ScanLines_unlines lines Hall) as [H1 H2].
  unfold Parse. rewrite Hunix, Hdos, H1, H2.
  destruct (parseLines lines (EmptyString, Statements spec)) as [p s].
  now split.
Qed.

Lemma parse_crlf_as_lf_witness :
  Parse lineEndingFiles (New "nut") "Dockerfile.dos"
  = Parse lineEndingFiles (New "nut") "Dockerfile.unix" /\
  Statements (fst (Parse lineEndingFiles (New "nut") "Dockerfile.unix"))
  = snd (parseLines sampleLines (EmptyString, Statements (New "nut"))).
Proof.
  apply (parse_crlf_as_lf lineEndingFiles (New "nut")
           "Dockerfile.unix" "Dockerfile.dos" sampleLines).
  - repeat constructor.
  - reflexivity.
  - reflexivity.
Defined.

(** * Further properties of the interpreter *)

Section LabelFacts.

Lemma splitFrom_nonempty (s : string) :
  forall cur, exists piece pieces, splitFrom "=" 0 cur s = piece :: pieces.
Proof.
  induction s as [| c s IH]; intros cur; [now eexists; eexists |].
  cbn [splitFrom]. destruct (HasPrefix (String c s) "="); [now eexists; eexists |].
  apply IH.
Qed.

Lemma splitFrom_two_pieces (w : string) :
  forall cur,
    Contains w "=" = true ->
    exists k v pieces, splitFrom "=" 0 cur w = k :: v :: pieces.
Proof.
  induction w as [| c w IH]; intros cur Hw; [discriminate |].
  rewrite Contains_cons in Hw. cbn [splitFrom].
  destruct (HasPrefix (String c w) "=") eqn:Hc.
  - change (String.length "=" - 1)%nat with 0%nat.
    destruct (splitFrom_nonempty w EmptyString) as [v [pieces ->]].
    now exists cur, v, pieces.
  - apply IH. exact Hw.
Qed.

(** The guard of the LABEL case makes [pair[1]] safe. *)
Lemma Split_two_pieces (w : string) :
  Contains w "=" = true ->
  exists k v pieces, Split w "=" = k :: v :: pieces.
Proof. apply splitFrom_two_pieces. Qed.

Lemma labelLoop_outcome (args : list string) :
  forall cfg,
    fst (labelLoop args cfg)
    = (if forallb (fun w => Contains w "=") args then Val None else Exited 1%Z) /\
    trace (snd (labelLoop args cfg)) = trace cfg.
Proof.
  induction args as [| w rest IH]; intros cfg; [now split |].
  cbn [labelLoop forallb]. destruct (Contains w "=") eqn:Hw; [| now split].
  destruct (Split_two_pieces w Hw) as [k [v [pieces ->]]].
  cbn [andb]. unfold bind. cbn [index nth_error ret setLabel modifyManifest modify].
  match goal with |- context [labelLoop rest ?c] =>
    destruct (IH c) as [H1 H2] end.
  rewrite H1, H2. now split.
Qed.

End LabelFacts.

(** X7: a LABEL statement never panics: since the loop splits only the
    arguments that contain ['='], [pair[1]] always exists.  It lets the
    build go on when every argument contains ['='] and ends the process
    otherwise, and it calls no collaborator. *)
Theorem label_never_panics
        (rt : Runtime) (id : string) (volumes : list string)
        (statement : string) (args : list string) (cfg : Config) :
  Fields statement = "LABEL" :: args ->
  fst (execStatement rt id volumes statement cfg)
  = (if forallb (fun w => Contains w "=") args then Val None else Exited 1%Z) /\
  trace (snd (execStatement rt id volumes statement cfg)) = trace cfg.
Proof.
  intros Hf. rewrite (execStatement_words rt id volumes _ _ _ Hf).
  change (directiveOf "LABEL") with LABEL. cbn [execDirective tl].
  apply labelLoop_outcome.
Qed.

Lemma label_never_panics_witness :
  fst (execStatement quietRuntime "nut" ["vol"] "LABEL a=b =c d=" initialConfig)
  = Val None /\
  trace (snd (execStatement quietRuntime "nut" ["vol"] "LABEL a=b =c d=" initialConfig))
  = trace initialConfig.
Proof.
  apply (label_never_panics quietRuntime "nut" ["vol"]
           "LABEL a=b =c d=" ["a=b"; "=c"; "d="] initialConfig).
  vm_compute. reflexivity.
Defined.

(** X10: statements of the cases that do nothing (VOLUME, STOPSIGNAL and
    unknown keywords) can be taken out of a script without changing what the
    statement loop returns, the state it leaves or the calls it makes. *)
Theorem idle_statements_can_be_dropped
        (rt : Runtime) (id : string) (volumes : list string)
        (statements : list string) (cfg : Config) :
  runStatements rt id volumes
                (List.filter (fun s => negb (doesNothing s)) statements) cfg
  = runStatements rt id volumes statements cfg.
Proof.
  revert cfg. induction statements as [| s rest IH]; intros cfg; [reflexivity |].
  cbn [List.filter]. destruct (doesNothing s) eqn:Hs; cbn [negb].
  - assert (Hexec : execStatement rt id volumes s cfg = (Val None, cfg)).
    { unfold doesNothing, directiveOfStatement in Hs.
      destruct (Fields s) as [| keyword args] eqn:Hf; [discriminate |].
      rewrite (execStatement_words rt id volumes _ _ _ Hf).
      destruct (directiveOf keyword); try discriminate; reflexivity. }
    cbn [runStatements]. unfold orReturn, bind. rewrite Hexec. apply IH.
  - cbn [runStatements]. unfold orReturn, bind.
    destruct (execStatement rt id volumes s cfg) as [[[e |] | code | cause] c1];
      try reflexivity.
    apply IH.
Qed.

Section PortFacts.

Lemma maxUint64_value : maxUint64 = 18446744073709551615.
Proof. reflexivity. Qed.

Lemma decimalFrom_ge (s : string) : forall n, n <= decimalFrom n s.
Proof.
  induction s as [| c s IH]; intros n; cbn [decimalFrom]; [lia |].
  specialize (IH (n * 10 + (N_of_ascii c - 48))). lia.
Qed.

(** On a decimal numeral that fits 64 bits the digit loop of [ParseUint]
    computes the number it denotes. *)
Lemma parseUintLoop_decimal (s : string) :
  forall n,
    allDigits s = true -> decimalFrom n s <= maxUint64 ->
    parseUintLoop s n = (decimalFrom n s, None).
Proof.
  induction s as [| c s IH]; intros n Hdigits Hfit; [reflexivity |].
  cbn [allDigits] in Hdigits. apply andb_prop in Hdigits as [Hc Hs].
  cbn [parseUintLoop decimalFrom] in *. rewrite Hc.
  apply andb_prop in Hc as [Hlo Hhi]. apply N.leb_le in Hlo, Hhi.
  pose proof (decimalFrom_ge s (n * 10 + (N_of_ascii c - 48))) as Hge.
  rewrite maxUint64_value in *.
  change (18446744073709551615 / 10 + 1) with 1844674407370955162.
  change (2 ^ 64) with 18446744073709551616.
  destruct (N.leb_spec 1844674407370955162 n); [lia |].
  rewrite N.mod_small by lia.
  destruct (N.ltb_spec (n * 10 + (N_of_ascii c - 48)) (n * 10)); [lia |].
  destruct (N.ltb_spec 18446744073709551615 (n * 10 + (N_of_ascii c - 48)));
    [lia |].
  cbn [orb]. rewrite <- maxUint64_value in Hfit. now apply IH.
Qed.

Lemma parseUintLoop_bound (s : string) :
  forall n, n <= maxUint64 -> fst (parseUintLoop s n) <= maxUint64.
Proof.
  induction s as [| c s IH]; intros n Hn; [exact Hn |].
  cbn [parseUintLoop].
  destruct ((48 <=? N_of_ascii c) && (N_of_ascii c <=? 57)); [| cbn; lia].
  destruct (maxUint64 / 10 + 1 <=? n); [cbn; lia |].
  destruct (_ || _) eqn:Hover; [cbn; lia |].
  apply IH. apply orb_false_elim in Hover as [_ Hover].
  now apply N.ltb_ge in Hover.
Qed.

Lemma ParseUint_bound (s : string) : fst (ParseUint s) <= maxUint64.
Proof.
  destruct s as [| c s]; [cbn; lia |].
  apply parseUintLoop_bound. lia.
Qed.

Lemma ParseUint_decimal (s : string) :
  s <> EmptyString -> allDigits s = true -> decimalValue s <= maxUint64 ->
  ParseUint s = (decimalValue s, None).
Proof.
  intros Hs Hdigits Hfit. destruct s as [| c s]; [congruence |].
  now apply parseUintLoop_decimal.
Qed.

End PortFacts.

(** X8: EXPOSE records decimal ports faithfully: when every argument is a
    decimal numeral that fits 64 bits, the exposed ports grow by the numbers
    the arguments denote, in order, and the build goes on. *)
Theorem expose_records_decimal_ports
        (rt : Runtime) (id : string) (volumes : list string)
        (statement : string) (args : list string) (cfg : Config) :
  Fields statement = "EXPOSE" :: args ->
  Forall (fun p => allDigits p = true /\ decimalValue p <= maxUint64) args ->
  fst (execStatement rt id volumes statement cfg) = Val None /\
  exposedPortsOf (snd (execStatement rt id volumes statement cfg))
  = exposedPortsOf cfg ++ map decimalValue args.
Proof.
  intros Hf Hargs.
  pose proof (fieldsFrom_fields_nonempty statement 0 EmptyString) as Hne.
  fold (Fields statement) in Hne. rewrite Hf in Hne.
  apply Forall_cons_1 in Hne as [_ Hne].
  rewrite (execStatement_words rt id volumes _ _ _ Hf).
  change (directiveOf "EXPOSE") with EXPOSE. cbn [execDirective tl]. unfold bind.
  destruct (exposeLoop_ports args cfg) as [H1 H2].
  destruct (exposeLoop args cfg) as [out cfg']. simpl in H1, H2. subst out.
  simpl. split; [reflexivity |]. rewrite H2. f_equal.
  clear H2 Hf. induction args as [| p rest IH]; [reflexivity |].
  apply Forall_cons_1 in Hne as [Hp Hne].
  apply Forall_cons_1 in Hargs as [[Hd Hfit] Hargs].
  cbn [map]. rewrite (ParseUint_decimal p Hp Hd Hfit). cbn [fst].
  now rewrite IH.
Qed.

Lemma expose_records_decimal_ports_witness :
  fst (execStatement quietRuntime "nut" ["vol"]
         "EXPOSE 80 443 18446744073709551615" initialConfig) = Val None /\
  exposedPortsOf (snd (execStatement quietRuntime "nut" ["vol"]
                         "EXPOSE 80 443 18446744073709551615" initialConfig))
  = [] ++ [80; 443; 18446744073709551615].
Proof.
  apply (expose_records_decimal_ports quietRuntime "nut" ["vol"]
           "EXPOSE 80 443 18446744073709551615"
           ["80"; "443"; "18446744073709551615"] initialConfig).
  - vm_compute. reflexivity.
  - repeat constructor; vm_compute; congruence.
Defined.

(** X9: an EXPOSE statement never stops the build and never panics,
    whatever its arguments; it calls no collaborator, keeps the ports
    recorded before, and every port it records fits 64 bits. *)
Theorem expose_never_fails
        (rt : Runtime) (id : string) (volumes : list string)
        (statement : string) (args : list string) (cfg : Config) :
  Fields statement = "EXPOSE" :: args ->
  fst (execStatement rt id volumes statement cfg) = Val None /\
  trace (snd (execStatement rt id volumes statement cfg)) = trace cfg /\
  exists added,
    exposedPortsOf (snd (execStatement rt id volumes statement cfg))
    = exposedPortsOf cfg ++ added /\
    Forall (fun port => port <= maxUint64) added.
Proof.
  intros Hf. rewrite (execStatement_words rt id volumes _ _ _ Hf).
  change (directiveOf "EXPOSE") with EXPOSE. cbn [execDirective tl].
  destruct (blind_exposeLoop args None cfg) as [_ Htrace].
  unfold bind.
  destruct (exposeLoop_ports args cfg) as [H1 H2].
  destruct (exposeLoop args cfg) as [out cfg']. simpl in H1, H2, Htrace.
  subst out. simpl. split; [reflexivity |]. split; [exact Htrace |].
  exists (map (fun p => fst (ParseUint p)) args). split; [exact H2 |].
  apply Forall_map. apply Forall_forall. intros p _. apply ParseUint_bound.
Qed.

Lemma expose_never_fails_witness :
  fst (execStatement quietRuntime "nut" ["vol"] "EXPOSE http -1 99999999999999999999"
         initialConfig) = Val None /\
  trace (snd (execStatement quietRuntime "nut" ["vol"]
                "EXPOSE http -1 99999999999999999999" initialConfig))
  = trace initialConfig /\
  exists added,
    exposedPortsOf (snd (execStatement quietRuntime "nut" ["vol"]
                           "EXPOSE http -1 99999999999999999999" initialConfig))
    = exposedPortsOf initialConfig ++ added /\
    Forall (fun port => port <= maxUint64) added.
Proof.
  apply (expose_never_fails quietRuntime "nut" ["vol"]
           "EXPOSE http -1 99999999999999999999"
           ["http"; "-1"; "99999999999999999999"] initialConfig).
  vm_compute. reflexivity.
Defined.

Section Frame.

Variable rt : Runtime.
Variable id : string.
Variable volumes : list string.

Lemma keeps_cloneLoop {X : Type} (part : BuilderState.t -> X)
      (name : string) (vols : list string) :
  (forall c st,
     part (BuilderState.mk c (BuilderState.Env st) (BuilderState.Cwd st)
             (BuilderState.Manifest st)) = part st) ->
  keeps part (cloneLoop rt id name vols).
Proof.
  intros Hpart. induction vols as [| volume vols IH]; [apply keeps_ret |].
  cbn [cloneLoop]. apply keeps_bind; [apply keeps_getTrace | intros tr].
  apply keeps_bind; [apply keeps_emit | intros _].
  destruct (CloneAndStartContainer rt tr name id volume) as [c err].
  apply keeps_bind.
  - unfold setContainer. apply keeps_modify. intros st. apply Hpart.
  - intros _. destruct err; [apply keeps_ret | exact IH].
Qed.

Lemma frame_envLoop (args : list string) : keeps (untouchedBy ENV) (envLoop args).
Proof.
  induction args as [args IH] using (induction_ltof1 _ (@List.length string)).
  unfold ltof in IH.
  destruct args as [| w rest]; [apply keeps_ret |].
  cbn [envLoop]. destruct (Contains w "=").
  - apply keeps_bind; [unfold appendEnv; keeps_step | intros _].
    apply IH. simpl. lia.
  - destruct rest as [| v rest']; [apply keeps_panic |].
    apply keeps_bind; [unfold appendEnv; keeps_step | intros _].
    apply IH. simpl. lia.
Qed.

Lemma frame_labelLoop (args : list string) :
  keeps (untouchedBy LABEL) (labelLoop args).
Proof.
  induction args as [| w rest IH]; [apply keeps_ret |].
  cbn [labelLoop]. destruct (Contains w "="); [| apply keeps_logFatalf].
  unfold setLabel. repeat keeps_step.
Qed.

Lemma frame_exposeLoop (args : list string) :
  keeps (untouchedBy EXPOSE) (exposeLoop args).
Proof.
  induction args as [| p rest IH]; [apply keeps_ret |].
  cbn [exposeLoop]. unfold appendPort. repeat keeps_step.
Qed.

(** Each case of the [switch] assigns only the fields that are its own. *)
Lemma frame_directive (d : Directive) (words : list string) :
  keeps (untouchedBy d) (execDirective rt id volumes d words).
Proof.
  pose proof (keeps_RunCommand (untouchedBy RUN) rt).
  pose proof (keeps_addFiles (untouchedBy ADD) rt).
  pose proof frame_envLoop. pose proof frame_labelLoop.
  pose proof frame_exposeLoop.
  destruct d; cbn [execDirective]; unfold setEntryPoint;
    try solve [repeat keeps_step].
  (* FROM *)
  apply keeps_bind; [apply keeps_getState | intros st].
  destruct (BuilderState.Container st); [apply keeps_ret |].
  apply keeps_bind; [apply keeps_index | intros base].
  apply keeps_orReturn.
  - apply keeps_cloneLoop. reflexivity.
  - unfold loadManifest. repeat keeps_step.
Qed.

End Frame.

(** X11: every case of the [switch] assigns only its own fields: LABEL the
    labels, EXPOSE the ports, ENV the two env lists, WORKDIR the two working
    directories, MAINTAINER the maintainers, USER the user, CMD and
    ENTRYPOINT the entry point, FROM the handle and the manifest; RUN, ADD,
    COPY, VOLUME, STOPSIGNAL and unknown keywords assign nothing.  This holds
    however the statement ends (error, panic and exit included). *)
Theorem directive_assigns_only_its_fields
        (rt : Runtime) (id : string) (volumes : list string)
        (statement : string) (cfg : Config) :
  match directiveOfStatement statement with
  | Some d =>
      untouchedBy d (state (snd (execStatement rt id volumes statement cfg)))
      = untouchedBy d (state cfg)
  | None => snd (execStatement rt id volumes statement cfg) = cfg
  end.
Proof.
  unfold directiveOfStatement.
  destruct (Fields statement) as [| keyword args] eqn:Hf.
  - unfold execStatement. rewrite Hf. reflexivity.
  - rewrite (execStatement_words rt id volumes _ _ _ Hf). apply frame_directive.
Qed.

Section ScriptInvariants.

Variable rt : Runtime.
Variable id : string.
Variable volumes : list string.

(** A property that every statement hands on, however it ends, holds where
    the statement loop stops. *)
Lemma runStatements_preserves (I : Config -> Prop) (statements : list string) :
  (forall s cfg, I cfg -> I (snd (execStatement rt id volumes s cfg))) ->
  forall cfg, I cfg -> I (snd (runStatements rt id volumes statements cfg)).
Proof.
  intros Hstep. induction statements as [| s rest IH]; intros cfg HI; [exact HI |].
  cbn [runStatements]. unfold orReturn, bind.
  specialize (Hstep s cfg HI).
  destruct (execStatement rt id volumes s cfg) as [[[e |] | code | cause] c1];
    simpl in *; try assumption.
  now apply IH.
Qed.

Lemma execStatement_frame (s keyword : string) (args : list string) (cfg : Config) :
  Fields s = keyword :: args ->
  untouchedBy (directiveOf keyword)
              (state (snd (execStatement rt id volumes s cfg)))
  = untouchedBy (directiveOf keyword) (state cfg).
Proof.
  intros Hf. rewrite (execStatement_words rt id volumes _ _ _ Hf).
  apply frame_directive.
Qed.

Lemma execStatement_no_words (s : string) (cfg : Config) :
  Fields s = [] -> execStatement rt id volumes s cfg = (Panicked IndexOutOfRange, cfg).
Proof. intros Hf. unfold execStatement. now rewrite Hf. Qed.

Lemma execStatement_handle_stays (s : string) (cfg : Config) (c : Container) :
  handleOf cfg = Some c ->
  handleOf (snd (execStatement rt id volumes s cfg)) = Some c.
Proof.
  intros Hc. destruct (Fields s) as [| keyword args] eqn:Hf.
  { now rewrite execStatement_no_words. }
  destruct (Directive_eq_dec (directiveOf keyword) FROM) as [Hd | Hd].
  - rewrite (execStatement_from_with_handle rt id volumes s cfg c);
      [exact Hc | | exact Hc].
    unfold isFROM, directiveOfStatement. now rewrite Hf, Hd.
  - pose proof (execStatement_frame s keyword args cfg Hf) as Hframe.
    apply (f_equal BuilderState.Container) in Hframe.
    unfold handleOf in *. rewrite <- Hc.
    destruct (directiveOf keyword); try congruence; exact Hframe.
Qed.

End ScriptInvariants.

(** X12: once the build state holds a container handle, no statement
    replaces or drops it: wherever the statement loop stops, and however,
    the handle is the same. *)
Theorem handle_is_never_replaced
        (rt : Runtime) (id : string) (volumes : list string)
        (statements : list string) (cfg : Config) (c : Container) :
  handleOf cfg = Some c ->
  handleOf (snd (runStatements rt id volumes statements cfg)) = Some c.
Proof.
  apply (runStatements_preserves rt id volumes (fun cfg' => handleOf cfg' = Some c)).
  intros s cfg'. apply execStatement_handle_stays.
Qed.

Lemma handle_is_never_replaced_witness :
  handleOf (snd (runStatements quietRuntime "nut" ["vol"]
                   ["RUN make"; "FROM other"; "ENV A=1"] sampleConfig))
  = Some (ContainerRef 1).
Proof.
  apply (handle_is_never_replaced quietRuntime "nut" ["vol"]
           ["RUN make"; "FROM other"; "ENV A=1"] sampleConfig (ContainerRef 1)).
  reflexivity.
Defined.

Section Mirrors.

Variable rt : Runtime.
Variable id : string.
Variable volumes : list string.

Lemma execStatement_entry_stays (s : string) (cfg : Config) (c : Container) :
  handleOf cfg = Some c -> entryPointOf cfg <> [] ->
  entryPointOf (snd (execStatement rt id volumes s cfg)) = entryPointOf cfg.
Proof.
  intros Hc Hset. destruct (Fields s) as [| keyword args] eqn:Hf.
  { now rewrite execStatement_no_words. }
  destruct (isFROM s) eqn:Hfrom.
  { now rewrite (execStatement_from_with_handle rt id volumes s cfg c). }
  destruct (setsEntryPoint s) eqn:Hentry.
  { now rewrite (execStatement_entry_when_set rt id volumes s cfg). }
  pose proof (execStatement_frame rt id volumes s keyword args cfg Hf) as Hframe.
  apply (f_equal (fun st => Manifest.EntryPoint (BuilderState.Manifest st)))
    in Hframe.
  unfold isFROM, setsEntryPoint, directiveOfStatement in Hfrom, Hentry.
  rewrite Hf in Hfrom, Hentry. unfold entryPointOf.
  destruct (directiveOf keyword); try discriminate; exact Hframe.
Qed.

Lemma execStatement_env_grows (s : string) (cfg : Config) (c : Container) :
  handleOf cfg = Some c ->
  exists added,
    liveEnv (snd (execStatement rt id volumes s cfg)) = liveEnv cfg ++ added /\
    manifestEnv (snd (execStatement rt id volumes s cfg)) = manifestEnv cfg ++ added.
Proof.
  intros Hc. destruct (Fields s) as [| keyword args] eqn:Hf.
  { rewrite execStatement_no_words by assumption. exists [].
    now rewrite !app_nil_r. }
  destruct (isFROM s) eqn:Hfrom.
  { rewrite (execStatement_from_with_handle rt id volumes s cfg c) by assumption.
    exists []. now rewrite !app_nil_r. }
  destruct (Directive_eq_dec (directiveOf keyword) ENV) as [Hd | Hd].
  - rewrite (execStatement_words rt id volumes _ _ _ Hf), Hd.
    cbn [execDirective tl]. unfold bind.
    destruct (envLoop_entries args cfg) as [H1 [H2 _]].
    exists (envEntries args).
    destruct (envLoop args cfg) as [[[] | code | cause] cfg']; simpl in *;
      now split.
  - pose proof (execStatement_frame rt id volumes s keyword args cfg Hf) as Hframe.
    pose proof (f_equal BuilderState.Env Hframe) as Hlive.
    pose proof (f_equal (fun st => Manifest.Env (BuilderState.Manifest st)) Hframe)
      as Hmanifest.
    unfold isFROM, directiveOfStatement in Hfrom. rewrite Hf in Hfrom.
    exists []. rewrite !app_nil_r. unfold liveEnv, manifestEnv.
    destruct (directiveOf keyword); try discriminate; try congruence;
      now split.
Qed.

Lemma execStatement_workdir_mirrored (s : string) (cfg : Config) (c : Container) :
  handleOf cfg = Some c -> cwdOf cfg = workDirOf cfg ->
  cwdOf (snd (execStatement rt id volumes s cfg))
  = workDirOf (snd (execStatement rt id volumes s cfg)).
Proof.
  intros Hc Hsame. destruct (Fields s) as [| keyword args] eqn:Hf.
  { now rewrite execStatement_no_words. }
  destruct (isFROM s) eqn:Hfrom.
  { now rewrite (execStatement_from_with_handle rt id volumes s cfg c). }
  destruct (Directive_eq_dec (directiveOf keyword) WORKDIR) as [Hd | Hd].
  - rewrite (execStatement_words rt id volumes _ _ _ Hf), Hd.
    cbn [execDirective]. unfold bind, index.
    destruct (nth_error (keyword :: args) 1); [reflexivity | exact Hsame].
  - pose proof (execStatement_frame rt id volumes s keyword args cfg Hf) as Hframe.
    pose proof (f_equal BuilderState.Cwd Hframe) as Hcwd.
    pose proof (f_equal (fun st => Manifest.WorkDir (BuilderState.Manifest st))
                        Hframe) as Hwork.
    unfold isFROM, directiveOfStatement in Hfrom. rewrite Hf in Hfrom.
    unfold cwdOf, workDirOf in *.
    destruct (directiveOf keyword); try discriminate; try congruence;
      simpl in Hcwd, Hwork; congruence.
Qed.

End Mirrors.

(** X13: once a container exists and the entry point is set (not empty), no
    later statement changes the entry point: wherever the statement loop
    stops, it is the one that was set. *)
Theorem entry_point_is_set_once
        (rt : Runtime) (id : string) (volumes : list string)
        (statements : list string) (cfg : Config) (c : Container) :
  handleOf cfg = Some c ->
  entryPointOf cfg <> [] ->
  entryPointOf (snd (runStatements rt id volumes statements cfg)) = entryPointOf cfg.
Proof.
  intros Hc Hset.
  apply (runStatements_preserves rt id volumes
           (fun cfg' => handleOf cfg' = Some c /\ entryPointOf cfg' = entryPointOf cfg));
    [| now split].
  intros s cfg' [Hc' Hep]. split.
  - now apply execStatement_handle_stays.
  - rewrite <- Hep. apply execStatement_entry_stays with (c := c); congruence.
Qed.

(** X14: once a container exists, the live environment of the build state
    and the env list of the manifest grow in step: wherever the statement
    loop stops, both lists have been extended by the same entries. *)
Theorem env_lists_grow_in_step
        (rt : Runtime) (id : string) (volumes : list string)
        (statements : list string) (cfg : Config) (c : Container) :
  handleOf cfg = Some c ->
  exists added,
    liveEnv (snd (runStatements rt id volumes statements cfg))
    = liveEnv cfg ++ added /\
    manifestEnv (snd (runStatements rt id volumes statements cfg))
    = manifestEnv cfg ++ added.
Proof.
  intros Hc.
  assert (H : handleOf (snd (runStatements rt id volumes statements cfg)) = Some c /\
              exists added,
                liveEnv (snd (runStatements rt id volumes statements cfg))
                = liveEnv cfg ++ added /\
                manifestEnv (snd (runStatements rt id volumes statements cfg))
                = manifestEnv cfg ++ added).
  { apply (runStatements_preserves rt id volumes
             (fun cfg' =>
                handleOf cfg' = Some c /\
                exists added,
                  liveEnv cfg' = liveEnv cfg ++ added /\
                  manifestEnv cfg' = manifestEnv cfg ++ added)).
    - intros s cfg' [Hc' [added [H1 H2]]]. split.
      + now apply execStatement_handle_stays.
      + destruct (execStatement_env_grows rt id volumes s cfg' c Hc')
          as [more [H3 H4]].
        exists (added ++ more). rewrite H3, H4, H1, H2, <- !List.app_assoc.
        now split.
    - split; [exact Hc |]. exists []. now rewrite !app_nil_r. }
  exact (proj2 H).
Qed.

(** X15: once a container exists and the working directory of the build
    state equals the one of the manifest, they stay equal: WORKDIR assigns
    both, and no other statement assigns either. *)
Theorem working_directories_stay_equal
        (rt : Runtime) (id : string) (volumes : list string)
        (statements : list string) (cfg : Config) (c : Container) :
  handleOf cfg = Some c ->
  cwdOf cfg = workDirOf cfg ->
  cwdOf (snd (runStatements rt id volumes statements cfg))
  = workDirOf (snd (runStatements rt id volumes statements cfg)).
Proof.
  intros Hc Hsame.
  apply (runStatements_preserves rt id volumes
           (fun cfg' => handleOf cfg' = Some c /\ cwdOf cfg' = workDirOf cfg'));
    [| now split].
  intros s cfg' [Hc' Hsame']. split.
  - now apply execStatement_handle_stays.
  - now apply execStatement_workdir_mirrored with (c := c).
Qed.

Lemma entry_point_is_set_once_witness :
  entryPointOf (snd (runStatements quietRuntime "nut" ["vol"]
                       sampleStatements startedConfig))
  = entryPointOf startedConfig.
Proof.
  apply (entry_point_is_set_once quietRuntime "nut" ["vol"]
           sampleStatements startedConfig (ContainerRef 1)).
  - reflexivity.
  - discriminate.
Defined.

Lemma env_lists_grow_in_step_witness :
  exists added,
    liveEnv (snd (runStatements quietRuntime "nut" ["vol"]
                    sampleStatements startedConfig))
    = liveEnv startedConfig ++ added /\
    manifestEnv (snd (runStatements quietRuntime "nut" ["vol"]
                        sampleStatements startedConfig))
    = manifestEnv startedConfig ++ added.
Proof.
  apply (env_lists_grow_in_step quietRuntime "nut" ["vol"]
           sampleStatements startedConfig (ContainerRef 1)).
  reflexivity.
Defined.

Lemma working_directories_stay_equal_witness :
  cwdOf (snd (runStatements quietRuntime "nut" ["vol"]
                sampleStatements startedConfig))
  = workDirOf (snd (runStatements quietRuntime "nut" ["vol"]
                      sampleStatements startedConfig)).
Proof.
  apply (working_directories_stay_equal quietRuntime "nut" ["vol"]
           sampleStatements startedConfig (ContainerRef 1)); reflexivity.
Defined.

Section BaseImage.

Variable rt : Runtime.
Variable id : string.
Variable volumes : list string.

Lemma cloneLoop_success (name : string) (vols : list string) :
  forall cfg cfg',
    cloneLoop rt id name vols cfg = (Val None, cfg') ->
    trace cfg' = trace cfg ++ cloneCalls name id vols /\
    (vols = [] -> cfg' = cfg) /\
    (vols <> [] ->
     handleOf cfg'
     = fst (CloneAndStartContainer rt
              (trace cfg ++ cloneCalls name id (List.removelast vols))
              name id (List.last vols EmptyString))).
Proof.
  induction vols as [| volume vols IH]; intros cfg cfg' Hrun.
  - cbn in Hrun. injection Hrun as <-. cbn. rewrite app_nil_r.
    repeat split. congruence.
  - cbn [cloneLoop] in Hrun.
    unfold bind, getTrace, emit, setContainer, modify in Hrun. simpl in Hrun.
    destruct (CloneAndStartContainer rt (trace cfg) name id volume)
      as [c [e |]] eqn:Hclone; simpl in Hrun; [discriminate |].
    destruct (IH _ _ Hrun) as [Htrace [Hnil Hlast]]. simpl in Htrace.
    split; [| split; [discriminate | intros _]].
    + rewrite Htrace, <- List.app_assoc. reflexivity.
    + destruct vols as [| volume' vols'].
      * rewrite (Hnil eq_refl). cbn. now rewrite app_nil_r, Hclone.
      * rewrite (Hlast ltac:(discriminate)). simpl trace.
        change (List.removelast (volume :: volume' :: vols'))
          with (volume :: List.removelast (volume' :: vols')).
        change (List.last (volume :: volume' :: vols') EmptyString)
          with (List.last (volume' :: vols') EmptyString).
        unfold cloneCalls. cbn [map]. now rewrite <- List.app_assoc.
Qed.


End BaseImage.

(** X16: a FROM that lets the build go on has cloned the base image once
    for each volume, in order, and then loaded the parent's manifest, and
    nothing else; with several volumes the handle the build state keeps is
    the one of the last clone. *)
Theorem from_clones_once_per_volume
        (rt : Runtime) (id : string) (volumes : list string)
        (statement base : string) (more : list string) (cfg cfg' : Config) :
  Fields statement = "FROM" :: base :: more ->
  handleOf cfg = None ->
  execStatement rt id volumes statement cfg = (Val None, cfg') ->
  trace cfg'
  = trace cfg ++ cloneCalls (ParentName rt base) id volumes
      ++ [ManifestLoadCall (ParentName rt base)] /\
  (volumes <> [] ->
   handleOf cfg'
   = fst (CloneAndStartContainer rt
            (trace cfg ++ cloneCalls (ParentName rt base) id (List.removelast volumes))
            (ParentName rt base) id (List.last volumes EmptyString))).
Proof.
  intros Hf Hnil. rewrite (execStatement_words rt id volumes _ _ _ Hf).
  change (directiveOf "FROM") with FROM. cbn [execDirective].
  unfold bind at 1, getState. unfold handleOf in Hnil. simpl. rewrite Hnil.
  unfold bind at 1. cbn [index nth_error ret]. unfold orReturn, bind at 1.
  destruct (cloneLoop rt id (ParentName rt base) volumes cfg)
    as [[[e |] | code | cause] c1] eqn:Hclone; try discriminate.
  destruct (cloneLoop_success rt id _ _ _ _ Hclone) as [Htrace [_ Hlast]].
  unfold loadManifest, bind, getTrace, emit, getState, modifyManifest, modify.
  simpl.
  destruct (ManifestLoad rt _ _ _) as [m err]. simpl.
  intros [= <-]. simpl. split.
  - rewrite Htrace, <- List.app_assoc. reflexivity.
  - intros Hne. unfold handleOf in *. simpl. now apply Hlast.
Qed.

Lemma from_clones_once_per_volume_witness :
  trace (snd (execStatement quietRuntime "nut" ["data"; "logs"] "FROM base"
                initialConfig))
  = trace initialConfig ++ cloneCalls "base" "nut" ["data"; "logs"]
      ++ [ManifestLoadCall "base"] /\
  (["data"; "logs"] <> [] ->
   handleOf (snd (execStatement quietRuntime "nut" ["data"; "logs"] "FROM base"
                    initialConfig))
   = fst (CloneAndStartContainer quietRuntime
            (trace initialConfig
               ++ cloneCalls "base" "nut" (List.removelast ["data"; "logs"]))
            "base" "nut" (List.last ["data"; "logs"] EmptyString))).
Proof.
  apply (from_clones_once_per_volume quietRuntime "nut" ["data"; "logs"]
           "FROM base" "base" [] initialConfig
           (snd (execStatement quietRuntime "nut" ["data"; "logs"] "FROM base"
                   initialConfig))).
  - vm_compute. reflexivity.
  - reflexivity.
  - vm_compute. reflexivity.
Defined.



Section WholeBuild.

Variable rt : Runtime.

Lemma keeps_fetchLoop {X : Type} (part : BuilderState.t -> X)
      (rootfs : string) (labels : list (string * string)) :
  keeps part (fetchLoop rt rootfs labels).
Proof.
  pose proof (keeps_RunCommand part rt). pose proof (keeps_execRun part rt).
  induction labels as [| [k v] labels IH]; [apply keeps_ret |].
  cbn [fetchLoop]. repeat keeps_step.
Qed.

Lemma keeps_fetchArtifact {X : Type} (part : BuilderState.t -> X) :
  keeps part (fetchArtifact rt).
Proof.
  unfold fetchArtifact.
  apply keeps_bind; [apply keeps_rootfsOf | intros rootfs].
  apply keeps_bind; [apply keeps_getState | intros st].
  apply keeps_fetchLoop.
Qed.

(** Without a handle nothing after the statement loop can run. *)
Lemma fetchArtifact_without_handle (cfg : Config) :
  handleOf cfg = None -> fetchArtifact rt cfg = (Panicked NilDereference, cfg).
Proof.
  intros Hnil. unfold fetchArtifact, rootfsOf, theContainer, bind, getState.
  unfold handleOf in Hnil. simpl. now rewrite Hnil.
Qed.

Lemma execStatement_without_handle (id : string) (volumes : list string)
      (s : string) (cfg : Config) :
  volumes = [] \/ isFROM s = false ->
  handleOf cfg = None ->
  handleOf (snd (execStatement rt id volumes s cfg)) = None.
Proof.
  intros Hcase Hnil. destruct (Fields s) as [| keyword args] eqn:Hf.
  { now rewrite execStatement_no_words. }
  destruct (Directive_eq_dec (directiveOf keyword) FROM) as [Hd | Hd].
  - destruct Hcase as [-> | Hfrom].
    + rewrite (execStatement_words rt id [] _ _ _ Hf), Hd. rewrite <- Hnil.
      unfold handleOf.
      assert (Hkeep : keeps BuilderState.Container
                            (execDirective rt id [] FROM (keyword :: args))).
      { cbn [execDirective cloneLoop]. unfold loadManifest. repeat keeps_step. }
      apply Hkeep.
    + unfold isFROM, directiveOfStatement in Hfrom. rewrite Hf, Hd in Hfrom.
      discriminate.
  - pose proof (execStatement_frame rt id volumes s keyword args cfg Hf) as Hframe.
    apply (f_equal BuilderState.Container) in Hframe.
    unfold handleOf in *. rewrite <- Hnil.
    destruct (directiveOf keyword); try congruence; exact Hframe.
Qed.

Lemma Build_without_handle (spec : Spec) (volumes : list string) :
  handleOf (snd (runStatements rt (ID spec) volumes (Statements spec) initialConfig))
  = None ->
  fst (fst (Build rt spec volumes)) <> Val None /\
  (fst (runStatements rt (ID spec) volumes (Statements spec) initialConfig) = Val None ->
   fst (fst (Build rt spec volumes)) = Panicked NilDereference).
Proof.
  intros Hnil. unfold Build, buildBody, orReturn, bind.
  destruct (runStatements rt (ID spec) volumes (Statements spec) initialConfig)
    as [[[e |] | code | cause] c1]; simpl in *;
    try (split; [discriminate | intros H; discriminate H]).
  rewrite (fetchArtifact_without_handle c1 Hnil). simpl.
  split; [discriminate | reflexivity].
Qed.

End WholeBuild.

(** X18: [Build] called without a volume never returns nil: the FROM case
    then clones nothing, the handle stays absent, and a script that gets
    through all its statements panics on the nil handle when the artifacts
    are fetched. *)
Theorem build_without_volume_never_succeeds (rt : Runtime) (spec : Spec) :
  fst (fst (Build rt spec [])) <> Val None /\
  (fst (runStatements rt (ID spec) [] (Statements spec) initialConfig) = Val None ->
   fst (fst (Build rt spec [])) = Panicked NilDereference).
Proof.
  apply Build_without_handle.
  apply (runStatements_preserves rt (ID spec) [] (fun cfg => handleOf cfg = None));
    [| reflexivity].
  intros s cfg. apply execStatement_without_handle. now left.
Qed.

(** X19: a script without a FROM statement never makes [Build] return nil,
    whatever the volumes: no other statement creates the handle that
    [fetchArtifact] and [writeManifest] dereference. *)
Theorem build_without_from_never_succeeds
        (rt : Runtime) (spec : Spec) (volumes : list string) :
  Forall (fun s => isFROM s = false) (Statements spec) ->
  fst (fst (Build rt spec volumes)) <> Val None /\
  (fst (runStatements rt (ID spec) volumes (Statements spec) initialConfig) = Val None ->
   fst (fst (Build rt spec volumes)) = Panicked NilDereference).
Proof.
  intros Hall. apply Build_without_handle.
  induction (Statements spec) as [| s rest IH] using rev_ind; [reflexivity |].
  apply Forall_app in Hall as [Hrest Hs]. apply Forall_cons_1 in Hs as [Hs _].
  specialize (IH Hrest).
  rewrite runStatements_app. unfold orReturn, bind.
  destruct (runStatements rt (ID spec) volumes rest initialConfig)
    as [[[e |] | code | cause] c1]; simpl in *; try assumption.
  cbn [runStatements]. unfold orReturn, bind.
  pose proof (execStatement_without_handle rt (ID spec) volumes s c1
                (or_intror Hs) IH) as Hstep.
  destruct (execStatement rt (ID spec) volumes s c1)
    as [[[e |] | code | cause] c2]; simpl in *; assumption.
Qed.

Lemma build_without_from_never_succeeds_witness :
  fst (fst (Build quietRuntime (specOf ["ENV A=1"; "CMD /bin/sh"]) ["vol"]))
    <> Val None /\
  (fst (runStatements quietRuntime (ID (specOf ["ENV A=1"; "CMD /bin/sh"])) ["vol"]
          (Statements (specOf ["ENV A=1"; "CMD /bin/sh"])) initialConfig) = Val None ->
   fst (fst (Build quietRuntime (specOf ["ENV A=1"; "CMD /bin/sh"]) ["vol"]))
   = Panicked NilDereference).
Proof.
  apply (build_without_from_never_succeeds quietRuntime
           (specOf ["ENV A=1"; "CMD /bin/sh"]) ["vol"]).
  repeat constructor.
Defined.

Section ManifestWriting.

Variable rt : Runtime.

Lemma writeManifest_success (cfg cfg' : Config) :
  writeManifest rt cfg = (Val None, cfg') ->
  exists c rootfs more,
    handleOf cfg = Some c /\
    ConfigItem rt (trace cfg) c "lxc.rootfs" = rootfs :: more /\
    yamlMarshal rt (BuilderState.Manifest (state cfg))
    = (fst (yamlMarshal rt (BuilderState.Manifest (state cfg))), None) /\
    state cfg' = state cfg /\
    trace cfg'
    = trace cfg
        ++ [WriteFileCall (filepathJoin rt [rootfs; "../manifest.yml"])
              (fst (yamlMarshal rt (BuilderState.Manifest (state cfg)))) 420].
Proof.
  unfold writeManifest, rootfsOf, theContainer, writeFile, bind, getState,
    getTrace, emit, index, handleOf.
  simpl. destruct (BuilderState.Container (state cfg)) as [c |]; [| discriminate].
  simpl. destruct (ConfigItem rt (trace cfg) c "lxc.rootfs") as [| rootfs more]
    eqn:Hroot; [discriminate |].
  simpl. destruct (yamlMarshal rt (BuilderState.Manifest (state cfg)))
    as [d [e |]]; simpl; [discriminate |].
  unfold ret. intros [= Hw <-]. exists c, rootfs, more. simpl.
  repeat split. exact Hroot.
Qed.

End ManifestWriting.

(** X20: when [Build] returns nil, the build state holds a container
    handle, and the last thing [Build] did was to write, with mode 0644, the
    YAML form of the manifest it leaves in [spec.State] to [../manifest.yml]
    beside the container's root file system. *)
Theorem build_success_writes_final_manifest
        (rt : Runtime) (spec spec' : Spec) (volumes : list string)
        (calls : list Event) :
  Build rt spec volumes = (Val None, spec', calls) ->
  exists c rootfs more before,
    BuilderState.Container (State spec') = Some c /\
    ConfigItem rt before c "lxc.rootfs" = rootfs :: more /\
    calls
    = before
        ++ [WriteFileCall (filepathJoin rt [rootfs; "../manifest.yml"])
              (fst (yamlMarshal rt (BuilderState.Manifest (State spec')))) 420].
Proof.
  unfold Build, buildBody, orReturn, bind.
  destruct (runStatements rt (ID spec) volumes (Statements spec) initialConfig)
    as [[[e |] | code | cause] c1]; try discriminate.
  pose proof (keeps_fetchArtifact rt (fun st => st) c1) as Hkeep.
  destruct (fetchArtifact rt c1) as [[[e |] | code | cause] c2];
    try discriminate.
  simpl in Hkeep.
  destruct (writeManifest rt c2) as [out c3] eqn:Hwrite.
  intros [= -> <- <-].
  destruct (writeManifest_success rt c2 c3 Hwrite)
    as [c [rootfs [more [Hc [Hroot [_ [Hstate Htrace]]]]]]].
  exists c, rootfs, more, (trace c2). simpl. rewrite Hstate.
  unfold handleOf in Hc. repeat split; assumption.
Qed.

Lemma build_success_writes_final_manifest_witness :
  exists c rootfs more before,
    BuilderState.Container
      (State (snd (fst (Build quietRuntime
                          (specOf ["FROM base"; "ENV A=1"; "RUN make"]) ["vol"]))))
    = Some c /\
    ConfigItem quietRuntime before c "lxc.rootfs" = rootfs :: more /\
    snd (Build quietRuntime (specOf ["FROM base"; "ENV A=1"; "RUN make"]) ["vol"])
    = before
        ++ [WriteFileCall (filepathJoin quietRuntime [rootfs; "../manifest.yml"])
              (fst (yamlMarshal quietRuntime
                      (BuilderState.Manifest
                         (State (snd (fst (Build quietRuntime
                            (specOf ["FROM base"; "ENV A=1"; "RUN make"])
                            ["vol"]))))))) 420].
Proof.
  apply (build_success_writes_final_manifest quietRuntime
           (specOf ["FROM base"; "ENV A=1"; "RUN make"])
           (snd (fst (Build quietRuntime
                        (specOf ["FROM base"; "ENV A=1"; "RUN make"]) ["vol"])))
           ["vol"]
           (snd (Build quietRuntime
                   (specOf ["FROM base"; "ENV A=1"; "RUN make"]) ["vol"]))).
  vm_compute. reflexivity.
Defined.

Section Harness.

Variable rt : Runtime.

(** What [RunCommand] does when the handle and the root file system are
    there: one write, then, if it succeeded, one request to the driver. *)
Lemma RunCommand_runs (command : list string) (cfg : Config)
      (c : Container) (rootfs : string) (more : list string) :
  handleOf cfg = Some c ->
  ConfigItem rt (trace cfg) c "lxc.rootfs" = rootfs :: more ->
  let written := scriptWritten rt rootfs (state cfg) command in
  RunCommand rt command cfg
  = match WriteFile rt (trace cfg) (filepathJoin rt [rootfs; "/tmp/dockerfile.sh"])
            (scriptFor (state cfg) command) 493 with
    | Some e => (Val (Some e), {| state := state cfg; trace := trace cfg ++ [written] |})
    | None =>
        (Val
           match RunCommandStatus rt (trace cfg ++ [written]) c
                   ["/bin/bash"; "/tmp/dockerfile.sh"] (attachOptions rt) with
           | (_, Some e) => Some e
           | (exitCode, None) =>
               if negb (Z.eqb exitCode 0)
               then Some (CommandExitError (Join command " ") exitCode)
               else None
           end,
         {| state := state cfg;
            trace := (trace cfg ++ [written]) ++ [scriptAsked rt c] |})
    end.
Proof.
  intros Hc Hroot written. unfold handleOf in Hc.
  unfold RunCommand, rootfsOf, theContainer, orReturn, writeFile, bind,
    getState, getTrace, emit, index.
  simpl. rewrite Hc. simpl. rewrite Hroot. simpl.
  fold (scriptWritten rt rootfs (state cfg) command). fold written.
  destruct (WriteFile rt (trace cfg) _ _ 493) as [e |]; [reflexivity |].
  simpl. rewrite Hc. simpl.
  destruct (RunCommandStatus rt (trace cfg ++ [written]) c _ _)
    as [exitCode [e |]]; [reflexivity |].
  destruct (negb (Z.eqb exitCode 0)); reflexivity.
Qed.

Lemma RunCommand_returns (command : list string) (cfg cfg' : Config)
      (r : option error) :
  RunCommand rt command cfg = (Val r, cfg') ->
  exists c rootfs more,
    handleOf cfg = Some c /\
    ConfigItem rt (trace cfg) c "lxc.rootfs" = rootfs :: more.
Proof.
  unfold RunCommand, rootfsOf, theContainer, bind, getState, getTrace, index,
    handleOf.
  simpl. destruct (BuilderState.Container (state cfg)) as [c |]; [| discriminate].
  simpl. destruct (ConfigItem rt (trace cfg) c "lxc.rootfs") as [| rootfs more]
    eqn:Hroot; simpl; [discriminate |].
  intros _. exists c, rootfs, more. split; [reflexivity | exact Hroot].
Qed.

End Harness.

Section AddFiles.

Variable rt : Runtime.

(** [RunCommand] either panics at once, on the handle or on the root file
    system, or finds both. *)
Lemma RunCommand_cases (command : list string) (cfg : Config) :
  (exists cause, RunCommand rt command cfg = (Panicked cause, cfg)) \/
  (exists c rootfs more,
      handleOf cfg = Some c /\
      ConfigItem rt (trace cfg) c "lxc.rootfs" = rootfs :: more).
Proof.
  unfold RunCommand, rootfsOf, theContainer, bind, getState, getTrace, index,
    handleOf.
  simpl. destruct (BuilderState.Container (state cfg)) as [c |]; simpl.
  - destruct (ConfigItem rt (trace cfg) c "lxc.rootfs") as [| rootfs more]
      eqn:Hroot; simpl.
    + left. now eexists.
    + right. exists c, rootfs, more. split; [reflexivity | exact Hroot].
  - left. now eexists.
Qed.

End AddFiles.

(** X21: when [addFiles] returns nil it has done exactly four things, in
    this order: copied the source into the container's [tmp] directory on the
    host, written the script that copies it on to the destination, asked the
    driver to run that script, and removed the staged copy.  The build state
    is unchanged. *)
Theorem add_files_success_is_four_steps
        (rt : Runtime) (src dest : string) (cfg cfg' : Config) :
  addFiles rt src dest cfg = (Val None, cfg') ->
  exists c rootfs more rootfs' more' absPath,
    let base := filepathBase rt absPath in
    let staged := filepathJoin rt [rootfs; "tmp"; base] in
    let copied := ExecCommandCall "/bin/cp" ["-ar"; absPath; staged] in
    handleOf cfg = Some c /\
    ConfigItem rt (trace cfg) c "lxc.rootfs" = rootfs :: more /\
    filepathAbs rt (trace cfg) src = (absPath, None) /\
    ConfigItem rt (trace cfg ++ [copied]) c "lxc.rootfs" = rootfs' :: more' /\
    state cfg' = state cfg /\
    trace cfg'
    = trace cfg
        ++ [copied;
            scriptWritten rt rootfs' (state cfg)
              ["cp"; "-r"; filepathJoin rt ["/tmp"; base]; dest];
            scriptAsked rt c;
            ExecCommandCall "/bin/rm" ["-rf"; staged]].
Proof.
  unfold addFiles at 1. unfold rootfsOf, theContainer, execCombinedOutput,
    execRun, orReturn, bind, getState, getTrace, emit, index, handleOf.
  simpl. destruct (BuilderState.Container (state cfg)) as [c |] eqn:Hc;
    [| discriminate].
  simpl. destruct (ConfigItem rt (trace cfg) c "lxc.rootfs") as [| rootfs more]
    eqn:Hroot; simpl; [discriminate |].
  destruct (filepathAbs rt (trace cfg) src) as [absPath [e |]] eqn:Habs;
    simpl; [discriminate |].
  destruct (ExecCombinedOutput rt (trace cfg) "/bin/cp" _) as [out [e |]];
    simpl; [discriminate |].
  match goal with
  | |- context [RunCommand rt ?command ?c1] =>
      destruct (RunCommand_cases rt command c1)
        as [[cause Hpanic] | [c' [rootfs' [more' [Hc' Hroot']]]]];
      [rewrite Hpanic; discriminate |];
      rewrite (RunCommand_runs rt command c1 c' rootfs' more' Hc' Hroot')
  end.
  unfold handleOf in Hc'. simpl in Hc', Hroot'.
  assert (c' = c) as -> by congruence.
  simpl.
  destruct (WriteFile rt _ _ _ 493) as [e |]; [discriminate |].
  destruct (RunCommandStatus rt _ c _ _) as [exitCode [e |]]; [discriminate |].
  destruct (negb (Z.eqb exitCode 0)); [discriminate |].
  simpl.
  destruct (ExecRun rt _ "/bin/rm" _) as [e |]; [discriminate |].
  intros [= <-]. exists c, rootfs, more, rootfs', more', absPath. simpl.
  repeat split; try assumption.
  repeat rewrite <- List.app_assoc. reflexivity.
Qed.

Lemma add_files_success_is_four_steps_witness :
  exists c rootfs more rootfs' more' absPath,
    let base := filepathBase quietRuntime absPath in
    let staged := filepathJoin quietRuntime [rootfs; "tmp"; base] in
    let copied := ExecCommandCall "/bin/cp" ["-ar"; absPath; staged] in
    handleOf sampleConfig = Some c /\
    ConfigItem quietRuntime (trace sampleConfig) c "lxc.rootfs" = rootfs :: more /\
    filepathAbs quietRuntime (trace sampleConfig) "app" = (absPath, None) /\
    ConfigItem quietRuntime (trace sampleConfig ++ [copied]) c "lxc.rootfs"
    = rootfs' :: more' /\
    state (snd (addFiles quietRuntime "app" "/srv" sampleConfig))
    = state sampleConfig /\
    trace (snd (addFiles quietRuntime "app" "/srv" sampleConfig))
    = trace sampleConfig
        ++ [copied;
            scriptWritten quietRuntime rootfs' (state sampleConfig)
              ["cp"; "-r"; filepathJoin quietRuntime ["/tmp"; base]; "/srv"];
            scriptAsked quietRuntime c;
            ExecCommandCall "/bin/rm" ["-rf"; staged]].
Proof.
  apply (add_files_success_is_four_steps quietRuntime "app" "/srv" sampleConfig
           (snd (addFiles quietRuntime "app" "/srv" sampleConfig))).
  vm_compute. reflexivity.
Defined.

(** X22: whatever [addFiles] returns, it leaves the build state alone and
    only adds calls to the record; and it removes the staged copy only as
    its last call, straight after the driver ran the copying script with no
    error and exit code 0.  A failed copy leaves the staged file behind. *)
Theorem staged_copy_removed_only_after_script_succeeded
        (rt : Runtime) (src dest : string) (cfg cfg' : Config)
        (out : Outcome (option error)) (args : list string) :
  addFiles rt src dest cfg = (out, cfg') ->
  state cfg' = state cfg /\
  exists new,
    trace cfg' = trace cfg ++ new /\
    (In (ExecCommandCall "/bin/rm" args) new ->
     exists before c,
       new = before ++ [scriptAsked rt c; ExecCommandCall "/bin/rm" args] /\
       RunCommandStatus rt (trace cfg ++ before) c
         ["/bin/bash"; "/tmp/dockerfile.sh"] (attachOptions rt)
       = (0%Z, None)).
Proof.
  unfold addFiles at 1. unfold rootfsOf, theContainer, execCombinedOutput,
    execRun, orReturn, bind, getState, getTrace, emit, index.
  simpl. destruct (BuilderState.Container (state cfg)) as [c |] eqn:Hc; simpl;
    [| intros [= <- <-]; split; [reflexivity |]; exists [];
       split; [now rewrite List.app_nil_r | intros []]].
  destruct (ConfigItem rt (trace cfg) c "lxc.rootfs") as [| rootfs more];
    simpl;
    [intros [= <- <-]; split; [reflexivity |]; exists [];
     split; [now rewrite List.app_nil_r | intros []] |].
  destruct (filepathAbs rt (trace cfg) src) as [absPath [e |]]; simpl;
    [intros [= <- <-]; split; [reflexivity |]; exists [];
     split; [now rewrite List.app_nil_r | intros []] |].
  set (copied := ExecCommandCall "/bin/cp" _).
  destruct (ExecCombinedOutput rt (trace cfg) "/bin/cp" _) as [o [e |]]; simpl;
    [intros [= <- <-]; split; [reflexivity |]; exists [copied];
     split; [reflexivity | intros [H | []]; discriminate H] |].
  match goal with
  | |- context [RunCommand rt ?command ?c1] =>
      destruct (RunCommand_cases rt command c1)
        as [[cause Hpanic] | [c' [rootfs' [more' [Hc' Hroot']]]]];
      [rewrite Hpanic | 
       rewrite (RunCommand_runs rt command c1 c' rootfs' more' Hc' Hroot')]
  end.
  - intros [= <- <-]. split; [reflexivity |]. exists [copied].
    split; [reflexivity | intros [H | []]; discriminate H].
  - unfold handleOf in Hc'. simpl in Hc', Hroot'.
    assert (c' = c) as -> by congruence.
    simpl. set (written := scriptWritten rt rootfs' _ _).
    destruct (WriteFile rt _ _ _ 493) as [e |].
    + intros [= <- <-]. split; [reflexivity |]. exists [copied; written].
      split; [now rewrite <- List.app_assoc |].
      intros [H | [H | []]]; discriminate H.
    + destruct (RunCommandStatus rt _ c _ _) as [exitCode [e |]] eqn:Hstatus.
      * intros [= <- <-]. split; [reflexivity |].
        exists [copied; written; scriptAsked rt c].
        split; [now repeat rewrite <- List.app_assoc |].
        intros [H | [H | [H | []]]]; discriminate H.
      * destruct (Z.eqb_spec exitCode 0) as [-> | Hcode]; simpl.
        -- set (removed := ExecCommandCall "/bin/rm" _).
           assert (forall r : option error,
                      match r with
                      | Some e => ret (Some e)
                      | None => ret None
                      end = ret r) as Hret by (intros [e |]; reflexivity).
           rewrite Hret. unfold ret.
           intros [= <- <-]. split; [reflexivity |]. simpl.
           exists [copied; written; scriptAsked rt c; removed].
           split; [now repeat rewrite <- List.app_assoc |].
           intros [H | [H | [H | [H | []]]]]; try discriminate H.
           exists [copied; written], c. rewrite H. split; [reflexivity |].
           rewrite <- Hstatus. now rewrite <- List.app_assoc.
        -- intros [= <- <-]. split; [reflexivity |].
           exists [copied; written; scriptAsked rt c].
           split; [now repeat rewrite <- List.app_assoc |].
           intros [H | [H | [H | []]]]; discriminate H.
Qed.

Lemma staged_copy_removed_only_after_script_succeeded_witness :
  state (snd (addFiles quietRuntime "app" "/srv" sampleConfig))
  = state sampleConfig /\
  exists new,
    trace (snd (addFiles quietRuntime "app" "/srv" sampleConfig))
    = trace sampleConfig ++ new /\
    (In (ExecCommandCall "/bin/rm" ["-rf"; "/var/lib/lxc/nut/rootfs/tmp/app"]) new ->
     exists before c,
       new = before
               ++ [scriptAsked quietRuntime c;
                   ExecCommandCall "/bin/rm"
                     ["-rf"; "/var/lib/lxc/nut/rootfs/tmp/app"]] /\
       RunCommandStatus quietRuntime (trace sampleConfig ++ before) c
         ["/bin/bash"; "/tmp/dockerfile.sh"] (attachOptions quietRuntime)
       = (0%Z, None)).
Proof.
  apply (staged_copy_removed_only_after_script_succeeded quietRuntime
           "app" "/srv" sampleConfig
           (snd (addFiles quietRuntime "app" "/srv" sampleConfig))
           (fst (addFiles quietRuntime "app" "/srv" sampleConfig))).
  vm_compute. reflexivity.
Defined.

Section Artifacts.

Variable rt : Runtime.


Lemma RunCommand_host (command : list string) (cfg cfg' : Config)
      (r : option error) :
  RunCommand rt command cfg = (Val r, cfg') ->
  state cfg' = state cfg /\ hostCommands (trace cfg') = hostCommands (trace cfg).
Proof.
  intros Hrun.
  destruct (RunCommand_returns rt command cfg cfg' r Hrun)
    as [c [rootfs [more [Hc Hroot]]]].
  rewrite (RunCommand_runs rt command cfg c rootfs more Hc Hroot) in Hrun.
  unfold hostCommands.
  destruct (WriteFile rt _ _ _ 493) as [e |]; injection Hrun as _ <-; simpl;
    repeat rewrite List.filter_app; simpl; repeat rewrite List.app_nil_r;
    split; reflexivity.
Qed.

Lemma fetchLoop_host (rootfs : string) (labels : list (string * string))
      (cfg cfg' : Config) :
  fetchLoop rt rootfs labels cfg = (Val None, cfg') ->
  state cfg' = state cfg /\
  hostCommands (trace cfg')
  = hostCommands (trace cfg)
      ++ List.map (hostCopy rt rootfs) (List.filter isArtifact labels).
Proof.
  revert cfg. induction labels as [| [k v] labels IH]; intros cfg.
  - intros [= <-]. simpl. now rewrite List.app_nil_r.
  - cbn [fetchLoop List.filter]. unfold isArtifact at 1. cbn [fst].
    destruct (HasPrefix k "nut_artifact_"); [| apply IH].
    unfold orReturn, bind.
    destruct (RunCommand rt _ cfg) as [[[e |] | code | cause] c1] eqn:Hrun;
      try discriminate.
    destruct (RunCommand_host _ _ _ _ Hrun) as [Hstate Hhost].
    unfold execRun, bind, getTrace, emit. simpl. intros Hloop.
    destruct (IH _ Hloop) as [Hstate' Hhost']. simpl in Hstate', Hhost'.
    split; [congruence |].
    rewrite Hhost'. unfold hostCommands at 1. rewrite List.filter_app. simpl.
    fold (hostCommands (trace c1)). rewrite Hhost.
    rewrite <- List.app_assoc. reflexivity.
Qed.

End Artifacts.



(** X24: the answer of the host to the copies out of the container has no
    influence on [fetchArtifact]: its result, the build state and the calls
    made are the same whatever those copies report. *)
Theorem fetch_ignores_host_copy_result
        (rt : Runtime)
        (answer : list Event -> string -> list string -> option error)
        (cfg : Config) :
  fetchArtifact (withExecRun rt answer) cfg = fetchArtifact rt cfg.
Proof.
  unfold fetchArtifact. apply (f_equal (fun loop => bind (rootfsOf rt) loop cfg)).
  reflexivity.
Qed.

(** X25: when [fetchArtifact] returns nil, the build state is unchanged and
    the host commands it has run are one [/bin/cp -ar] per label whose key
    starts with [nut_artifact_], in the order the labels were visited, each
    from the container's [tmp] directory to the base name of the label's
    value, a path relative to the working directory of the host process. *)
Theorem fetch_copies_each_artifact_to_host
        (rt : Runtime) (cfg cfg' : Config) :
  fetchArtifact rt cfg = (Val None, cfg') ->
  exists c rootfs more,
    handleOf cfg = Some c /\
    ConfigItem rt (trace cfg) c "lxc.rootfs" = rootfs :: more /\
    state cfg' = state cfg /\
    hostCommands (trace cfg')
    = hostCommands (trace cfg)
        ++ List.map (hostCopy rt rootfs)
             (List.filter isArtifact
                (rangeMap rt (Manifest.Labels (BuilderState.Manifest (state cfg))))).
Proof.
  unfold fetchArtifact, rootfsOf, theContainer, bind, getState, getTrace, index,
    handleOf.
  simpl. destruct (BuilderState.Container (state cfg)) as [c |]; [| discriminate].
  simpl. destruct (ConfigItem rt (trace cfg) c "lxc.rootfs") as [| rootfs more]
    eqn:Hroot; simpl; [discriminate |].
  intros Hloop. destruct (fetchLoop_host rt _ _ _ _ Hloop) as [Hstate Hhost].
  exists c, rootfs, more. repeat split; assumption.
Qed.

Lemma fetch_copies_each_artifact_to_host_witness :
  exists c rootfs more,
    handleOf artifactConfig = Some c /\
    ConfigItem quietRuntime (trace artifactConfig) c "lxc.rootfs" = rootfs :: more /\
    state (snd (fetchArtifact quietRuntime artifactConfig)) = state artifactConfig /\
    hostCommands (trace (snd (fetchArtifact quietRuntime artifactConfig)))
    = hostCommands (trace artifactConfig)
        ++ List.map (hostCopy quietRuntime rootfs)
             (List.filter isArtifact
                (rangeMap quietRuntime
                   (Manifest.Labels (BuilderState.Manifest (state artifactConfig))))).
Proof.
  apply (fetch_copies_each_artifact_to_host quietRuntime artifactConfig
           (snd (fetchArtifact quietRuntime artifactConfig))).
  vm_compute. reflexivity.
Defined.

(** * Properties of [Stop] and [Destroy] *)

(** X26: whenever [Stop] would fail, [Destroy] fails with the same error
    after the same calls, and so never asks the driver to destroy the
    container: not without a handle, not when the container is not defined,
    and not when a running container could not be stopped. *)
Theorem destroy_fails_where_stop_fails
        (lc : Lifecycle) (spec : Spec) (e : error) (calls : list LifecycleCall) :
  Stop lc spec = (Some e, calls) ->
  Destroy lc spec = (Some e, calls) /\
  forall c, ~ In (DestroyCall c) calls.
Proof.
  unfold Stop, Destroy.
  destruct (BuilderState.Container (State spec)) as [c |].
  - destruct (Defined lc [] c); simpl.
    + destruct (IsRunning lc [DefinedCall c] c); [| discriminate].
      intros [= -> <-]. split; [reflexivity |].
      intros c' [H | [H | [H | []]]]; discriminate H.
    + intros [= <- <-]. split; [reflexivity |].
      intros c' [H | []]; discriminate H.
  - intros [= <- <-]. split; [reflexivity |]. intros c' [].
Qed.

Lemma destroy_fails_where_stop_fails_witness :
  Destroy stubbornLifecycle builtSpec
  = (Some (ExternalError "stop timed out"),
     [DefinedCall (ContainerRef 1); StateCall (ContainerRef 1);
      StopCall (ContainerRef 1)]) /\
  forall c,
    ~ In (DestroyCall c)
         [DefinedCall (ContainerRef 1); StateCall (ContainerRef 1);
          StopCall (ContainerRef 1)].
Proof.
  apply (destroy_fails_where_stop_fails stubbornLifecycle builtSpec).
  reflexivity.
Defined.

(** X27: whenever [Stop] would return nil, [Destroy] makes the same calls
    and then asks the driver, once and as its last call, to destroy the
    container, whose answer it returns. *)
Theorem destroy_is_stop_then_destroy
        (lc : Lifecycle) (spec : Spec) (calls : list LifecycleCall) :
  Stop lc spec = (None, calls) ->
  exists c,
    BuilderState.Container (State spec) = Some c /\
    Defined lc [] c = true /\
    Destroy lc spec = (ContainerDestroy lc calls c, calls ++ [DestroyCall c]).
Proof.
  unfold Stop, Destroy.
  destruct (BuilderState.Container (State spec)) as [c |]; [| discriminate].
  destruct (Defined lc [] c) eqn:Hdefined; simpl; [| discriminate].
  destruct (IsRunning lc [DefinedCall c] c).
  - intros [= Hstop <-]. rewrite Hstop. exists c. repeat split. exact Hdefined.
  - intros [= <-]. exists c. repeat split. exact Hdefined.
Qed.

Lemma destroy_is_stop_then_destroy_witness :
  exists c,
    BuilderState.Container (State builtSpec) = Some c /\
    Defined idleLifecycle [] c = true /\
    Destroy idleLifecycle builtSpec
    = (ContainerDestroy idleLifecycle
         [DefinedCall (ContainerRef 1); StateCall (ContainerRef 1)] c,
       [DefinedCall (ContainerRef 1); StateCall (ContainerRef 1)]
         ++ [DestroyCall c]).
Proof.
  apply (destroy_is_stop_then_destroy idleLifecycle builtSpec).
  reflexivity.
Defined.
